(** * Snapshot file framing and validation (internal/rsm/snapshotio.go)

    A shallow embedding of the snapshot writer, the snapshot reader and the
    chunk validator of [internal/rsm/snapshotio.go], together with the parts
    of the Go standard library they call ([encoding/binary], [hash/crc32],
    [io], [os]).  Go panics and returned errors are kept apart: a panic is an
    outcome of its own, an [error] is an ordinary returned value. *)

From Stdlib Require Import ZArith String List Bool Lia.
From Stdlib.Strings Require Import Byte.
Import ListNotations.
Open Scope Z_scope.

(** ** Bytes *)

Definition bytes := list byte.

(** [byte(v)]: conversion of an unsigned integer to a byte keeps the low
    eight bits. *)
Definition byte_of_Z (z : Z) : byte :=
  match Byte.of_N (Z.to_N (z mod 256)) with
  | Some b => b
  | None => x00
  end.

(** [uint64(b)] of a byte. *)
Definition Z_of_byte (b : byte) : Z := Z.of_N (Byte.to_N b).

(** [make([]byte, n)]: Go zero-fills. *)
Definition make (n : Z) : bytes := repeat x00 (Z.to_nat n).

(** A Go byte slice: [nil] is [None].  [len] and [bytes.Equal] do not tell
    [nil] from the empty slice. *)
Definition slice := option bytes.

Definition slice_bytes (s : slice) : bytes :=
  match s with
  | Some b => b
  | None => []
  end.

Definition bytes_eqb (a b : bytes) : bool :=
  if list_eq_dec Byte.byte_eq_dec a b then true else false.

(** [bytes.Equal] *)
Definition bytesEqual (a b : slice) : bool :=
  bytes_eqb (slice_bytes a) (slice_bytes b).

(** ** encoding/binary, little endian *)

Module LittleEndian.

Definition PutUint64 (v : Z) : bytes :=
  [ byte_of_Z v;
    byte_of_Z (Z.shiftr v 8);
    byte_of_Z (Z.shiftr v 16);
    byte_of_Z (Z.shiftr v 24);
    byte_of_Z (Z.shiftr v 32);
    byte_of_Z (Z.shiftr v 40);
    byte_of_Z (Z.shiftr v 48);
    byte_of_Z (Z.shiftr v 56) ].

(** Called on slices of eight bytes only; a shorter slice makes Go panic
    on the bounds check, which no caller here can trigger. *)
Definition Uint64 (b : bytes) : Z :=
  match b with
  | b0 :: b1 :: b2 :: b3 :: b4 :: b5 :: b6 :: b7 :: _ =>
      Z.lor (Z_of_byte b0)
     (Z.lor (Z.shiftl (Z_of_byte b1) 8)
     (Z.lor (Z.shiftl (Z_of_byte b2) 16)
     (Z.lor (Z.shiftl (Z_of_byte b3) 24)
     (Z.lor (Z.shiftl (Z_of_byte b4) 32)
     (Z.lor (Z.shiftl (Z_of_byte b5) 40)
     (Z.lor (Z.shiftl (Z_of_byte b6) 48)
            (Z.shiftl (Z_of_byte b7) 56)))))))
  | _ => 0
  end.

End LittleEndian.

(** ** hash/crc32, IEEE polynomial *)

Module crc32.

Definition IEEE : Z := 0xedb88320.

(** One round of the inner loop of [simpleMakeTable]. *)
Definition tableRound (crc : Z) : Z :=
  if Z.eqb (Z.land crc 1) 1
  then Z.lxor (Z.shiftr crc 1) IEEE
  else Z.shiftr crc 1.

(** [simpleMakeTable(IEEE)[i]] *)
Definition tableEntry (i : Z) : Z :=
  tableRound (tableRound (tableRound (tableRound
 (tableRound (tableRound (tableRound (tableRound i))))))).

(** Loop body of [simpleUpdate]:
    [crc = tab[byte(crc)^v] ^ (crc >> 8)]. *)
Definition step (crc : Z) (v : byte) : Z :=
  Z.lxor (tableEntry (Z.lxor (Z.land crc 255) (Z_of_byte v)))
         (Z.shiftr crc 8).

(** [update]: [crc = ^crc; for _, v := range p { ... }; return ^crc] *)
Definition update (crc : Z) (p : bytes) : Z :=
  Z.lxor (fold_left step p (Z.lxor crc 0xffffffff)) 0xffffffff.

(** The [digest] behind [crc32.NewIEEE()]. *)
Record digest : Type := mkDigest { crc : Z }.

Definition NewIEEE : digest := mkDigest 0.

(** [d.Write(p)]; it never returns an error. *)
Definition Write (d : digest) (p : bytes) : digest :=
  mkDigest (update (crc d) p).

(** [d.Sum(nil)]: the checksum in big-endian order. *)
Definition Sum (d : digest) : bytes :=
  let s := crc d in
  [ byte_of_Z (Z.shiftr s 24);
    byte_of_Z (Z.shiftr s 16);
    byte_of_Z (Z.shiftr s 8);
    byte_of_Z s ].

Definition ChecksumIEEE (p : bytes) : Z := update 0 p.

End crc32.

(** ** Panics, errors and state

    A Go function is a state transformer that either returns or panics.  A
    panic keeps the state reached when it was raised, so that what a
    function did before it panicked can be told. *)

Inductive outcome (S A : Type) : Type :=
| Ret (a : A) (s : S)
| Panic (msg : string) (s : S).
Arguments Ret {S A} a s.
Arguments Panic {S A} msg s.

Definition M (S A : Type) : Type := S -> outcome S A.

Definition ret {S A} (a : A) : M S A := fun s => Ret a s.

Definition panic {S A} (msg : string) : M S A := fun s => Panic msg s.

Definition bind {S A B} (c : M S A) (k : A -> M S B) : M S B :=
  fun s =>
    match c s with
    | Ret a s' => k a s'
    | Panic msg s' => Panic msg s'
    end.

Declare Scope go_scope.
Delimit Scope go_scope with go.
Notation "x <- c ;; k" := (bind c (fun x => k))
  (at level 61, c at next level, right associativity) : go_scope.
Notation "' pat <- c ;; k" :=
  (bind c (fun x => match x with pat => k end))
  (at level 61, pat pattern, c at next level, right associativity) : go_scope.
Open Scope go_scope.

(** The values of Go's [error] interface that this code can meet; [nil] is
    [None]. *)
Inductive errorValue : Type :=
| EOF
| ErrUnexpectedEOF
| ErrShortBuffer
| ErrNotExist
| ErrInvalid.

Definition error := option errorValue.

Definition is_nil {A} (e : option A) : bool :=
  match e with
  | None => true
  | Some _ => false
  end.

(** ** os: one disk, regular files

    The disk maps a path to the content of the file there.  Storage is
    ideal: writing, syncing and closing never fail, a read delivers every
    byte that is available, and a file is opened by one handle at a time. *)

Definition Disk := string -> option bytes.

Definition emptyDisk : Disk := fun _ => None.

Definition content (d : Disk) (p : string) : bytes :=
  match d p with
  | Some c => c
  | None => []
  end.

Definition store (d : Disk) (p : string) (c : bytes) : Disk :=
  fun q => if String.eqb q p then Some c else d q.

(** [*os.File]: the path the handle was opened on and its offset. *)
Record File : Type := mkFile { fname : string; fpos : Z }.

(** What [write(2)] at offset [off] leaves in a file that held [c]: a gap
    past the end reads as zeros. *)
Definition pwrite (c : bytes) (off : Z) (b : bytes) : bytes :=
  let o := Z.to_nat off in
  firstn o c ++ repeat x00 (o - length c) ++ b ++ skipn (o + length b) c.

Module os.

(** [os.OpenFile(fp, O_RDWR|O_CREATE|O_TRUNC, mode)] *)
Definition Create (fp : string) : M Disk (File * error) :=
  fun d => Ret (mkFile fp 0, None) (store d fp []).

(** [os.OpenFile(fp, O_RDONLY, 0)] *)
Definition OpenRead (fp : string) : M Disk (option File * error) :=
  fun d =>
    match d fp with
    | Some _ => Ret (Some (mkFile fp 0), None) d
    | None => Ret (None, Some ErrNotExist) d
    end.

(** [f.Write(b)] *)
Definition Write (f : File) (b : bytes) : M Disk (Z * error * File) :=
  fun d =>
    Ret (Z.of_nat (length b), None,
         mkFile (fname f) (fpos f + Z.of_nat (length b)))
        (store d (fname f) (pwrite (content d (fname f)) (fpos f) b)).

(** [f.Read(p)] with [len(p) = n]; the bytes returned are [p[:n']].
    An empty buffer reads nothing; at the end of the file the result is
    [0, io.EOF]. *)
Definition Read (f : File) (n : nat) : M Disk (bytes * error * File) :=
  fun d =>
    let avail := skipn (Z.to_nat (fpos f)) (content d (fname f)) in
    match n, avail with
    | O, _ => Ret ([], None, f) d
    | _, [] => Ret ([], Some EOF, f) d
    | _, _ =>
        let got := firstn n avail in
        Ret (got, None, mkFile (fname f) (fpos f + Z.of_nat (length got))) d
    end.

(** [f.Seek(off, 0)] *)
Definition Seek (f : File) (off : Z) : M Disk (Z * error * File) :=
  if off <? 0 then ret (0, Some ErrInvalid, f)
  else ret (off, None, mkFile (fname f) off).

(** [st, err := f.Stat(); st.Size()] *)
Definition StatSize (f : File) : M Disk (Z * error) :=
  fun d => Ret (Z.of_nat (length (content d (fname f))), None) d.

(** [f.Sync()], [fileutil.SyncDir(dir)], [f.Close()] *)
Definition Sync (f : File) : M Disk error := ret None.
Definition SyncDir (fp : string) : M Disk error := ret None.
Definition Close (f : File) : M Disk error := ret None.

End os.

(** ** io *)

Module io.

(** The [io.Reader] values that [GetHeader] builds over its file: the
    file itself, or [io.LimitReader(file, N)]. *)
Inductive Reader : Type :=
| FileReader
| LimitedReader (N : Z).

(** [r.Read(p)] with [len(p) = n], for a reader over the handle [f].
    [LimitedReader.Read]:
      if l.N <= 0 { return 0, EOF }
      if int64(len(p)) > l.N { p = p[0:l.N] }
      n, err = l.R.Read(p); l.N -= int64(n) *)
Definition Read (r : Reader) (f : File) (n : nat)
  : M Disk (bytes * error * Reader * File) :=
  match r with
  | FileReader =>
      '(b, e, f') <- os.Read f n ;;
      ret (b, e, FileReader, f')
  | LimitedReader N =>
      if N <=? 0 then ret ([], Some EOF, LimitedReader N, f)
      else
        let n' := if Z.of_nat n >? N then Z.to_nat N else n in
        '(b, e, f') <- os.Read f n' ;;
        ret (b, e, LimitedReader (N - Z.of_nat (length b)), f')
  end.

(** The loop of [io.ReadAtLeast(f, buf, min)] with [len(buf) = n]:
      for n < min && err == nil { nn, err = r.Read(buf[n:]); n += nn }
    [got] is [buf[:n]] so far. *)
Fixpoint readLoop (fuel : nat) (f : File) (n : nat) (got : bytes)
  : M Disk (bytes * error * File) :=
  match fuel with
  | O => ret (got, None, f)
  | S fuel' =>
      if (length got <? n)%nat then
        '(b, e, f') <- os.Read f (n - length got) ;;
        match e with
        | None => readLoop fuel' f' n (got ++ b)
        | Some _ => ret (got ++ b, e, f')
        end
      else ret (got, None, f)
  end.

(** [io.ReadFull(f, buf)] with [len(buf) = n]: the read bytes, and [nil]
    when all [n] were read, [EOF] when none was, [ErrUnexpectedEOF]
    otherwise.  Every pass of the loop that goes on reads a byte, so
    [n + 1] passes are enough. *)
Definition ReadFull (f : File) (n : nat) : M Disk (bytes * error * File) :=
  '(got, e, f') <- readLoop (S n) f n [] ;;
  if (n <=? length got)%nat then ret (got, None, f')
  else
    match got, e with
    | _ :: _, Some EOF => ret (got, Some ErrUnexpectedEOF, f')
    | _, _ => ret (got, e, f')
    end.

End io.

(** ** raftpb *)

(** Modelled from the spec: [pb.SnapshotHeader], declared in raftpb, which
    is not among the sources; the fields are those of the spec's data model,
    under the names [snapshotio.go] uses.  The three sizes and the version
    are [uint64], the checksum type is a small enumeration. *)
Record SnapshotHeader : Type := mkSnapshotHeader {
  SessionSize : Z;
  DataStoreSize : Z;
  UnreliableTime : Z;
  PayloadChecksum : slice;
  ChecksumType : Z;
  Version : Z;
  HeaderChecksum : slice
}.

(** [pb.SnapshotHeader{}] *)
Definition emptyHeader : SnapshotHeader :=
  mkSnapshotHeader 0 0 0 None 0 0 None.

Definition set_HeaderChecksum (h : SnapshotHeader) (c : slice)
  : SnapshotHeader :=
  mkSnapshotHeader (SessionSize h) (DataStoreSize h) (UnreliableTime h)
                   (PayloadChecksum h) (ChecksumType h) (Version h) c.

(** What [snapshotio.go] takes from outside the file: the size of the header
    region ([settings.SnapshotHeaderSize]), the two checksum identifiers and
    the header codec of raftpb, the trailer that closes a version-2 payload,
    and on the receiving side the strategy validators with the function that
    carves the header out of the first chunk.  The methods of a strategy
    validator act on its own state. *)
Class Externals : Type := {
  SnapshotHeaderSize : Z;
  CRC32IEEE : Z;
  HIGHWAY : Z;
  Marshal : SnapshotHeader -> string + bytes;
  Unmarshal : bytes -> string + SnapshotHeader;
  v2Trailer : crc32.digest -> bytes;
  IVValidatorState : Type;
  newV1Validator : SnapshotHeader -> IVValidatorState;
  newV2Validator : crc32.digest -> IVValidatorState;
  strategyAddChunk : bytes -> Z -> M IVValidatorState bool;
  strategyValidate : M IVValidatorState bool;
  getHeaderFromFirstChunk : bytes -> SnapshotHeader * bool
}.

(** ** internal/rsm/snapshotio.go *)

Section Model.

Context {E : Externals}.

Definition v1SnapshotVersion : Z := 1.
Definition v2SnapshotVersion : Z := 2.
Definition currentSnapshotVersion : Z := v1SnapshotVersion.
Definition defaultChecksumType : Z := CRC32IEEE.

(** [uint64(x)] of a signed 64-bit value, and the wrap-around of signed
    64-bit arithmetic. *)
Definition to_uint64 (x : Z) : Z := x mod 2 ^ 64.
Definition wrap_int64 (x : Z) : Z := (x + 2 ^ 63) mod 2 ^ 64 - 2 ^ 63.

Definition newCRC32Hash : crc32.digest := crc32.NewIEEE.

(** [plog.Panicf] logs and panics; the panic carries the format string
    here, not the formatted message. *)
Definition getChecksum {S} (t : Z) : M S crc32.digest :=
  if t =? CRC32IEEE then ret newCRC32Hash
  else if t =? HIGHWAY then panic "highway hash not supported yet"
  else panic "not supported checksum type %d".

Definition getChecksumType : Z := defaultChecksumType.

Definition getDefaultChecksum {S} : M S crc32.digest :=
  getChecksum getChecksumType.

(** *** The version strategies *)

(** Modelled from the spec: the writers behind [IVWriter] ([newV1Wrtier],
    [newV2Writer]), which are not among the sources.  Both pass the payload
    through to the file and keep one running checksum of the default type;
    version 1 is a flat byte stream, version 2 appends a trailer of 16
    bytes after the payload when it is flushed.  The [io.Writer] a strategy
    writes to is the [*os.File] of the [SnapshotWriter] itself, so the
    methods take that handle. *)
Inductive IVWriter : Type :=
| v1writer (h : crc32.digest)
| v2writer (h : crc32.digest).

Definition newV1Wrtier : IVWriter := v1writer newCRC32Hash.
Definition newV2Writer : IVWriter := v2writer newCRC32Hash.

Definition IVWriter_hash (vw : IVWriter) : crc32.digest :=
  match vw with
  | v1writer h => h
  | v2writer h => h
  end.

Definition IVWriter_with_hash (vw : IVWriter) (h : crc32.digest)
  : IVWriter :=
  match vw with
  | v1writer _ => v1writer h
  | v2writer _ => v2writer h
  end.

Definition IVWriter_Write (vw : IVWriter) (f : File) (data : bytes)
  : M Disk (Z * error * IVWriter * File) :=
  '(n, e, f') <- os.Write f data ;;
  ret (n, e,
       IVWriter_with_hash vw (crc32.Write (IVWriter_hash vw) data), f').

Definition IVWriter_Flush (vw : IVWriter) (f : File)
  : M Disk (error * File) :=
  match vw with
  | v1writer _ => ret (None, f)
  | v2writer h =>
      '(_, e, f') <- os.Write f (v2Trailer h) ;;
      ret (e, f')
  end.

Definition IVWriter_GetPayloadSum (vw : IVWriter) : bytes :=
  crc32.Sum (IVWriter_hash vw).

Definition IVWriter_GetVersion (vw : IVWriter) : Z :=
  match vw with
  | v1writer _ => v1SnapshotVersion
  | v2writer _ => v2SnapshotVersion
  end.

(** Modelled from the spec: the readers behind [IVReader] ([newV1Reader],
    [newV2Reader]), which are not among the sources.  Both hand on what the
    [io.Reader] they are bound to delivers, with its end-of-stream, and
    keep the checksum of everything read so far. *)
Inductive IVReader : Type :=
| v1reader (r : io.Reader) (h : crc32.digest)
| v2reader (r : io.Reader) (h : crc32.digest).

Definition newV1Reader (r : io.Reader) : IVReader :=
  v1reader r newCRC32Hash.
Definition newV2Reader (r : io.Reader) : IVReader :=
  v2reader r newCRC32Hash.

Definition IVReader_source (vr : IVReader) : io.Reader :=
  match vr with
  | v1reader r _ => r
  | v2reader r _ => r
  end.

Definition IVReader_hash (vr : IVReader) : crc32.digest :=
  match vr with
  | v1reader _ h => h
  | v2reader _ h => h
  end.

Definition IVReader_with (vr : IVReader) (r : io.Reader)
           (h : crc32.digest) : IVReader :=
  match vr with
  | v1reader _ _ => v1reader r h
  | v2reader _ _ => v2reader r h
  end.

Definition IVReader_Read (vr : IVReader) (f : File) (n : nat)
  : M Disk (bytes * error * IVReader * File) :=
  '(b, e, r', f') <- io.Read (IVReader_source vr) f n ;;
  ret (b, e, IVReader_with vr r' (crc32.Write (IVReader_hash vr) b), f').

Definition IVReader_Sum (vr : IVReader) : bytes :=
  crc32.Sum (IVReader_hash vr).

(** *** Dispatch on the version *)

Definition getVersionWriter {S} (v : Z) : M S IVWriter :=
  if v =? v1SnapshotVersion then ret newV1Wrtier
  else if v =? v2SnapshotVersion then ret newV2Writer
  else panic "unsupported v".

Definition getVersionReader {S} (r : io.Reader) (v : Z) : M S IVReader :=
  if v =? v1SnapshotVersion then ret (newV1Reader r)
  else if v =? v2SnapshotVersion then ret (newV2Reader r)
  else panic "unsupported v".

(** *** SnapshotWriter *)

Record SnapshotWriter : Type := mkSnapshotWriter {
  vw : IVWriter;
  file : File;
  fp : string
}.

(** [NewSnapshotWriter(fp, version)]; the second component is the
    returned error, the first is [nil] with it. *)
Definition NewSnapshotWriter (fp : string) (version : Z)
  : M Disk (option SnapshotWriter * error) :=
  '(f, err) <- os.Create fp ;;
  if negb (is_nil err) then ret (None, err)
  else
    let dummy := make SnapshotHeaderSize in
    '(_, err, f) <- os.Write f dummy ;;
    if negb (is_nil err) then ret (None, err)
    else
      w <- getVersionWriter version ;;
      ret (Some (mkSnapshotWriter w f fp), None).

Definition SnapshotWriter_Close (sw : SnapshotWriter) : M Disk error :=
  err <- os.Sync (file sw) ;;
  if negb (is_nil err) then ret err
  else
    err <- os.SyncDir (fp sw) ;;
    if negb (is_nil err) then ret err
    else os.Close (file sw).

(** [sw.Write(data)]: the count, the error and the writer afterwards. *)
Definition SnapshotWriter_Write (sw : SnapshotWriter) (data : bytes)
  : M Disk (Z * error * SnapshotWriter) :=
  '(n, e, w, f) <- IVWriter_Write (vw sw) (file sw) data ;;
  ret (n, e, mkSnapshotWriter w f (fp sw)).

Definition SnapshotWriter_Flush (sw : SnapshotWriter)
  : M Disk (error * SnapshotWriter) :=
  '(e, f) <- IVWriter_Flush (vw sw) (file sw) ;;
  ret (e, mkSnapshotWriter (vw sw) f (fp sw)).

(** Lines 153-160 of [SaveHeader]: the header before its checksum is
    known; [now] is [time.Now().UnixNano()]. *)
Definition initialHeader (sw : SnapshotWriter) (smsz sz now : Z)
  : SnapshotHeader :=
  {| SessionSize := smsz;
     DataStoreSize := sz;
     UnreliableTime := to_uint64 now;
     PayloadChecksum := Some (IVWriter_GetPayloadSum (vw sw));
     ChecksumType := getChecksumType;
     Version := IVWriter_GetVersion (vw sw);
     HeaderChecksum := None |}.

(** Lines 153-177 of [SaveHeader]: the finished header and its serialized
    record, or the panic met on the way. *)
Definition finalHeader {S} (sw : SnapshotWriter) (smsz sz now : Z)
  : M S (SnapshotHeader * bytes) :=
  let sh := initialHeader sw smsz sz now in
  match Marshal sh with
  | inl err => panic err
  | inr data =>
      headerHash <- getDefaultChecksum ;;
      let headerHash := crc32.Write headerHash data in
      let headerChecksum := crc32.Sum headerHash in
      let sh := set_HeaderChecksum sh (Some headerChecksum) in
      match Marshal sh with
      | inl err => panic err
      | inr data =>
          if Z.of_nat (length data) >? SnapshotHeaderSize - 8
          then panic "snapshot header is too large"
          else ret (sh, data)
      end
  end.

(** [sw.SaveHeader(smsz, sz)] at the time [now]. *)
Definition SaveHeader (sw : SnapshotWriter) (smsz sz now : Z)
  : M Disk (error * SnapshotWriter) :=
  '(_, data) <- finalHeader sw smsz sz now ;;
  '(_, err, f) <- os.Seek (file sw) 0 ;;
  match err with
  | Some _ => panic "invalid argument"
  | None =>
      let lenbuf := LittleEndian.PutUint64 (Z.of_nat (length data)) in
      '(_, err, f) <- os.Write f lenbuf ;;
      if negb (is_nil err) then ret (err, mkSnapshotWriter (vw sw) f (fp sw))
      else
        '(_, err, f) <- os.Write f data ;;
        if negb (is_nil err)
        then ret (err, mkSnapshotWriter (vw sw) f (fp sw))
        else ret (None, mkSnapshotWriter (vw sw) f (fp sw))
  end.

(** *** SnapshotReader *)

Record SnapshotReader : Type := mkSnapshotReader {
  r : option IVReader;
  rfile : File
}.

Definition NewSnapshotReader (fp : string)
  : M Disk (option SnapshotReader * error) :=
  '(f, err) <- os.OpenRead fp ;;
  match f, err with
  | Some f, None => ret (Some (mkSnapshotReader None f), None)
  | _, _ => ret (None, err)
  end.

Definition SnapshotReader_Close (sr : SnapshotReader) : M Disk error :=
  os.Close (rfile sr).

(** [sr.GetHeader()]: the header, the error and the reader afterwards. *)
Definition GetHeader (sr : SnapshotReader)
  : M Disk (SnapshotHeader * error * SnapshotReader) :=
  let empty := emptyHeader in
  '(lenbuf, err, f) <- io.ReadFull (rfile sr) 8 ;;
  let sr := mkSnapshotReader (r sr) f in
  if negb (is_nil err) then ret (empty, err, sr)
  else if negb (length lenbuf =? 8)%nat
  then ret (empty, Some ErrUnexpectedEOF, sr)
  else
    let sz := LittleEndian.Uint64 lenbuf in
    if sz >? SnapshotHeaderSize - 8
    then panic "invalid snapshot header size"
    else
      '(data, err, f) <- io.ReadFull f (Z.to_nat sz) ;;
      let sr := mkSnapshotReader (r sr) f in
      if negb (is_nil err) then ret (empty, err, sr)
      else if negb (length data =? Z.to_nat sz)%nat
      then ret (empty, Some ErrUnexpectedEOF, sr)
      else
        match Unmarshal data with
        | inl err => panic err
        | inr hdr =>
            '(offset, err, f) <- os.Seek f SnapshotHeaderSize ;;
            let sr := mkSnapshotReader (r sr) f in
            if negb (is_nil err) then ret (empty, err, sr)
            else if negb (to_uint64 offset =? SnapshotHeaderSize)
            then ret (empty, Some ErrUnexpectedEOF, sr)
            else
              let finish (reader : io.Reader) :=
                vr <- getVersionReader reader (Version hdr) ;;
                ret (hdr, None, mkSnapshotReader (Some vr) f) in
              if Version hdr =? v2SnapshotVersion then
                '(fileSz, err) <- os.StatSize f ;;
                if negb (is_nil err) then ret (empty, err, sr)
                else
                  let payloadSz :=
                    wrap_int64 (wrap_int64 (fileSz - SnapshotHeaderSize)
                                - 16) in
                  finish (io.LimitedReader payloadSz)
              else finish io.FileReader
        end.

(** [sr.Read(data)] with [len(data) = n]: the bytes read, the error and
    the reader afterwards. *)
Definition SnapshotReader_Read (sr : SnapshotReader) (n : nat)
  : M Disk (bytes * error * SnapshotReader) :=
  match r sr with
  | None => panic "Read called before GetHeader"
  | Some vr =>
      '(b, e, vr', f) <- IVReader_Read vr (rfile sr) n ;;
      ret (b, e, mkSnapshotReader (Some vr') f)
  end.

(** [sr.ValidatePayload(header)]; calling [Sum] through a [nil] strategy
    is Go's nil dereference. *)
Definition ValidatePayload {S} (sr : SnapshotReader)
           (header : SnapshotHeader) : M S unit :=
  match r sr with
  | None => panic "invalid memory address or nil pointer dereference"
  | Some vr =>
      let checksum := IVReader_Sum vr in
      if negb (bytesEqual (Some checksum) (PayloadChecksum header))
      then panic "corrupted snapshot payload"
      else ret tt
  end.

(** [sr.ValidateHeader(header)]; the receiver is not used. *)
Definition ValidateHeader {S} (header : SnapshotHeader) : M S unit :=
  let checksum := HeaderChecksum header in
  let header := set_HeaderChecksum header None in
  match Marshal header with
  | inl err => panic err
  | inr data =>
      headerHash <- getChecksum (ChecksumType header) ;;
      let headerHash := crc32.Write headerHash data in
      let headerChecksum := crc32.Sum headerHash in
      if negb (bytesEqual (Some headerChecksum) checksum)
      then panic "corrupted snapshot header"
      else ret tt
  end.

(** *** SnapshotValidator *)

(** The memory of one [SnapshotValidator]: the strategy validators
    allocated so far, each at its index, and the field [v], which is [nil]
    or points to one of them. *)
Record ValidatorMemory : Type := mkValidatorMemory {
  strategies : list IVValidatorState;
  v : option nat
}.

Definition NewSnapshotValidator : ValidatorMemory :=
  mkValidatorMemory [] None.

Fixpoint list_set {A} (l : list A) (i : nat) (x : A) : list A :=
  match l, i with
  | [], _ => []
  | _ :: t, O => x :: t
  | a :: t, S j => a :: list_set t j x
  end.

(** Allocation of a strategy validator; the result is its address. *)
Definition alloc (st : IVValidatorState) : M ValidatorMemory nat :=
  fun m =>
    Ret (length (strategies m))
        (mkValidatorMemory (strategies m ++ [st]) (v m)).

(** A method call through the pointer [l]: the method runs on the
    strategy validator stored there and leaves its next state there. *)
Definition call {A} (l : nat) (method : M IVValidatorState A)
  : M ValidatorMemory A :=
  fun m =>
    match nth_error (strategies m) l with
    | None =>
        Panic "invalid memory address or nil pointer dereference" m
    | Some st =>
        match method st with
        | Ret a st' =>
            Ret a (mkValidatorMemory (list_set (strategies m) l st') (v m))
        | Panic msg st' =>
            Panic msg
                  (mkValidatorMemory (list_set (strategies m) l st') (v m))
        end
    end.

Definition getVersionValidator (header : SnapshotHeader)
  : M ValidatorMemory nat :=
  let ver := Version header in
  if ver =? v1SnapshotVersion then alloc (newV1Validator header)
  else if ver =? v2SnapshotVersion then
    h <- getChecksum (ChecksumType header) ;;
    alloc (newV2Validator h)
  else panic "unsupported v".

(** [v.v = x] *)
Definition set_v (x : option nat) : M ValidatorMemory unit :=
  fun m => Ret tt (mkValidatorMemory (strategies m) x).

Definition get_v : M ValidatorMemory (option nat) :=
  fun m => Ret (v m) m.

(** [v.AddChunk(data, chunkID)] *)
Definition AddChunk (data : bytes) (chunkID : Z)
  : M ValidatorMemory bool :=
  if chunkID =? 0 then
    let '(header, ok) := getHeaderFromFirstChunk data in
    if negb ok then ret false
    else
      cur <- get_v ;;
      match cur with
      | Some _ => ret false
      | None =>
          l <- getVersionValidator header ;;
          _ <- set_v (Some l) ;;
          call l (strategyAddChunk data chunkID)
      end
  else
    cur <- get_v ;;
    match cur with
    | None => ret false
    | Some l => call l (strategyAddChunk data chunkID)
    end.

(** [v.Validate()] *)
Definition Validate : M ValidatorMemory bool :=
  cur <- get_v ;;
  match cur with
  | None => ret false
  | Some l => call l strategyValidate
  end.

End Model.

(** ** Callers

    The call sequences the properties below are about: a snapshot written
    chunk by chunk and closed, and a snapshot read back to its end. *)

Section Callers.

Context {E : Externals}.

(** [sw.Write] on every chunk in turn, stopping at the first error. *)
Fixpoint WriteAll (sw : SnapshotWriter) (chunks : list bytes)
  : M Disk (error * SnapshotWriter) :=
  match chunks with
  | [] => ret (None, sw)
  | c :: cs =>
      '(_, e, sw') <- SnapshotWriter_Write sw c ;;
      if is_nil e then WriteAll sw' cs else ret (e, sw')
  end.

(** [NewSnapshotWriter], the [Write] calls, [Flush], [SaveHeader],
    [Close]; the result is the first error met, if any. *)
Definition writeSnapshot (path : string) (version : Z)
           (chunks : list bytes) (smsz sz now : Z) : M Disk error :=
  '(osw, err) <- NewSnapshotWriter path version ;;
  match osw with
  | None => ret err
  | Some sw =>
      '(err, sw) <- WriteAll sw chunks ;;
      if negb (is_nil err) then ret err
      else
        '(err, sw) <- SnapshotWriter_Flush sw ;;
        if negb (is_nil err) then ret err
        else
          '(err, sw) <- SaveHeader sw smsz sz now ;;
          if negb (is_nil err) then ret err
          else SnapshotWriter_Close sw
  end.

(** A run of [sr.Read] calls with buffers of the given lengths, whatever
    each call returns; the result is all the bytes returned, in order. *)
Fixpoint ReadMany (sr : SnapshotReader) (lens : list nat)
  : M Disk (bytes * SnapshotReader) :=
  match lens with
  | [] => ret ([], sr)
  | n :: ns =>
      '(b, _, sr') <- SnapshotReader_Read sr n ;;
      '(bs, sr'') <- ReadMany sr' ns ;;
      ret (b ++ bs, sr'')
  end.

(** [sr.Read] with a buffer of [bufsz] bytes until it returns an error,
    at most [fuel] times.  The error is [Some EOF] at the end of the
    stream and [None] when the calls ran out first. *)
Fixpoint ReadToEnd (fuel : nat) (sr : SnapshotReader) (bufsz : nat)
         (acc : bytes) : M Disk (bytes * error * SnapshotReader) :=
  match fuel with
  | O => ret (acc, None, sr)
  | S fuel' =>
      '(b, e, sr') <- SnapshotReader_Read sr bufsz ;;
      match e with
      | None => ReadToEnd fuel' sr' bufsz (acc ++ b)
      | Some _ => ret (acc ++ b, e, sr')
      end
  end.

(** [NewSnapshotReader], [GetHeader], reading to the end, then
    [ValidatePayload] and [ValidateHeader] on the returned header.  The
    result is the header, the payload read, and the error that ended the
    reading. *)
Definition readSnapshot (path : string) (bufsz fuel : nat)
  : M Disk (SnapshotHeader * bytes * error) :=
  '(osr, err) <- NewSnapshotReader path ;;
  match osr with
  | None => ret (emptyHeader, [], err)
  | Some sr =>
      '(hdr, err, sr) <- GetHeader sr ;;
      if negb (is_nil err) then ret (hdr, [], err)
      else
        '(payload, err, sr) <- ReadToEnd fuel sr bufsz [] ;;
        _ <- ValidatePayload sr hdr ;;
        _ <- ValidateHeader hdr ;;
        _ <- SnapshotReader_Close sr ;;
        ret (hdr, payload, err)
  end.

(** The calls a transport makes on a validator, and the memory after a
    run of them; a panic that is recovered leaves the memory it reached. *)
Inductive ValidatorCall : Type :=
| CallAddChunk (data : bytes) (chunkID : Z)
| CallValidate.

Definition final {S A} (o : outcome S A) : S :=
  match o with
  | Ret _ s => s
  | Panic _ s => s
  end.

Definition runCall (c : ValidatorCall) (m : ValidatorMemory)
  : ValidatorMemory :=
  match c with
  | CallAddChunk data chunkID => final (AddChunk data chunkID m)
  | CallValidate => final (Validate m)
  end.

Definition runCalls (cs : list ValidatorCall) (m : ValidatorMemory)
  : ValidatorMemory :=
  fold_left (fun m c => runCall c m) cs m.

End Callers.

(** ** Vocabulary of the properties *)

(** The value a call returned, or the message of its panic. *)
Definition result {S A} (o : outcome S A) : string + A :=
  match o with
  | Ret a _ => inr a
  | Panic msg _ => inl msg
  end.

(** What a handle at offset [fpos f] has in front of it. *)
Definition ahead (f : File) (d : Disk) : bytes :=
  skipn (Z.to_nat (fpos f)) (content d (fname f)).

(** What an [io.Reader] over the handle [f] can still deliver. *)
Definition leftOf (rd : io.Reader) (f : File) (d : Disk) : bytes :=
  match rd with
  | io.FileReader => ahead f d
  | io.LimitedReader N => firstn (Z.to_nat N) (ahead f d)
  end.

(** The error of an [io.ReadFull] that met the end of the file after the
    bytes [got]. *)
Definition shortRead (got : bytes) : errorValue :=
  match got with
  | [] => EOF
  | _ :: _ => ErrUnexpectedEOF
  end.

Section Vocabulary.

Context {E : Externals}.

(** The checksum [SaveHeader] and [ValidateHeader] compute over a
    serialized record, and the strategies over a payload. *)
Definition checksumOf (data : bytes) : bytes :=
  crc32.Sum (crc32.Write newCRC32Hash data).

(** The header region holds its own length prefix, and its end and the
    trailer fit a signed 64-bit offset. *)
Definition regionFits : Prop :=
  8 <= SnapshotHeaderSize /\ SnapshotHeaderSize + 16 < 2 ^ 63.

(** The [io.Reader] that [GetHeader] binds the strategy to, for a header
    of version [ver] in a file of [size] bytes. *)
Definition payloadReader (ver size : Z) : io.Reader :=
  if ver =? v2SnapshotVersion
  then io.LimitedReader
         (wrap_int64 (wrap_int64 (size - SnapshotHeaderSize) - 16))
  else io.FileReader.

(** The same strategy when the subtraction does not wrap around. *)
Definition boundReader (ver size : Z) : IVReader :=
  if ver =? v2SnapshotVersion
  then v2reader (io.LimitedReader (size - SnapshotHeaderSize - 16))
                newCRC32Hash
  else v1reader io.FileReader newCRC32Hash.

(** The bytes of a file [c] that the strategy of [ver] may deliver: from
    the end of the header region to the end of the file, less the last 16
    bytes for version 2. *)
Definition payloadRegion (ver : Z) (c : bytes) : bytes :=
  let rest := skipn (Z.to_nat SnapshotHeaderSize) c in
  if ver =? v2SnapshotVersion
  then firstn (Z.to_nat (Z.of_nat (length c) - SnapshotHeaderSize - 16))
              rest
  else rest.

(** The reader is bound to a strategy that can still deliver [rem] and
    has the checksum state [h]. *)
Definition reading (sr : SnapshotReader) (d : Disk) (rem : bytes)
           (h : crc32.digest) : Prop :=
  0 <= fpos (rfile sr)
  /\ exists vr, r sr = Some vr
                /\ leftOf (IVReader_source vr) (rfile sr) d = rem
                /\ IVReader_hash vr = h.

(** The handle of the writer stands at the end of its file. *)
Definition atEnd (sw : SnapshotWriter) (d : Disk) : Prop :=
  fpos (file sw) = Z.of_nat (length (content d (fname (file sw)))).

(** The strategy [NewSnapshotWriter] binds for a supported version. *)
Definition freshWriter (version : Z) : IVWriter :=
  if version =? v1SnapshotVersion then newV1Wrtier else newV2Writer.

(** The trailer the strategy of [version] appends on [Flush]. *)
Definition trailerOf (version : Z) (payload : bytes) : bytes :=
  if version =? v1SnapshotVersion then []
  else v2Trailer (crc32.Write newCRC32Hash payload).

(** The header of a snapshot of [payload] before its own checksum is
    filled in. *)
Definition unsignedHeader (version : Z) (payload : bytes)
           (smsz sz now : Z) : SnapshotHeader :=
  mkSnapshotHeader smsz sz (to_uint64 now) (Some (checksumOf payload))
                   CRC32IEEE version None.

(** The three rejections that [AddChunk] decides by itself. *)
Definition rejectedByState (data : bytes) (chunkID : Z)
           (m : ValidatorMemory) : Prop :=
  (chunkID = 0 /\ v m = None /\ snd (getHeaderFromFirstChunk data) = false)
  \/ (chunkID <> 0 /\ v m = None)
  \/ (chunkID = 0 /\ v m <> None).

(** The memory of a validator that is unbound with nothing allocated, or
    bound to the one strategy validator allocated. *)
Definition wellBound (m : ValidatorMemory) : Prop :=
  (v m = None /\ strategies m = [])
  \/ (v m = Some 0%nat /\ length (strategies m) = 1%nat).

(** A call that cannot establish a header: [Validate], a chunk with a
    number other than 0, or a chunk 0 no header is extracted from. *)
Definition headerless (c : ValidatorCall) : Prop :=
  match c with
  | CallAddChunk data chunkID =>
      chunkID <> 0 \/ snd (getHeaderFromFirstChunk data) = false
  | CallValidate => True
  end.

(** The strategy validator [getVersionValidator] builds for a header of a
    supported version. *)
Definition firstStrategy (h : SnapshotHeader) : IVValidatorState :=
  if Version h =? v1SnapshotVersion then newV1Validator h
  else newV2Validator newCRC32Hash.

End Vocabulary.

(** ** An instance of the externals

    A header region of 1024 bytes, the identifiers 0 and 1, a codec with
    fixed-width numbers and length-prefixed checksums, a trailer made of the
    payload checksum and twelve reserved bytes, and strategy validators that
    keep a running checksum. *)

Module Sample.

Definition putSlice (s : slice) : bytes :=
  match s with
  | None => [x00]
  | Some b => x01 :: LittleEndian.PutUint64 (Z.of_nat (length b)) ++ b
  end.

Definition marshal (h : SnapshotHeader) : string + bytes :=
  inr (LittleEndian.PutUint64 (SessionSize h)
       ++ LittleEndian.PutUint64 (DataStoreSize h)
       ++ LittleEndian.PutUint64 (UnreliableTime h)
       ++ LittleEndian.PutUint64 (ChecksumType h)
       ++ LittleEndian.PutUint64 (Version h)
       ++ putSlice (PayloadChecksum h)
       ++ putSlice (HeaderChecksum h)).

Definition getUint64 (b : bytes) : option (Z * bytes) :=
  if (8 <=? length b)%nat
  then Some (LittleEndian.Uint64 (firstn 8 b), skipn 8 b)
  else None.

Definition getSlice (b : bytes) : option (slice * bytes) :=
  match b with
  | x00 :: rest => Some (None, rest)
  | x01 :: rest =>
      match getUint64 rest with
      | Some (n, rest') =>
          if (Z.to_nat n <=? length rest')%nat
          then Some (Some (firstn (Z.to_nat n) rest'),
                     skipn (Z.to_nat n) rest')
          else None
      | None => None
      end
  | _ => None
  end.

Definition unmarshal (b : bytes) : string + SnapshotHeader :=
  match getUint64 b with
  | Some (smsz, b) =>
  match getUint64 b with
  | Some (sz, b) =>
  match getUint64 b with
  | Some (t, b) =>
  match getUint64 b with
  | Some (ct, b) =>
  match getUint64 b with
  | Some (ver, b) =>
  match getSlice b with
  | Some (pc, b) =>
  match getSlice b with
  | Some (hc, []) => inr (mkSnapshotHeader smsz sz t pc ct ver hc)
  | _ => inl "unexpected EOF"%string
  end
  | None => inl "unexpected EOF"%string
  end
  | None => inl "unexpected EOF"%string
  end
  | None => inl "unexpected EOF"%string
  end
  | None => inl "unexpected EOF"%string
  end
  | None => inl "unexpected EOF"%string
  end
  | None => inl "unexpected EOF"%string
  end.

Definition trailer (h : crc32.digest) : bytes :=
  crc32.Sum h ++ repeat x00 12.

(** A strategy validator: the checksum it expects, if it knows one, and
    the checksum of the chunks so far. *)
Definition validatorState : Type := slice * crc32.digest.

Definition addChunk (data : bytes) (chunkID : Z) : M validatorState bool :=
  fun st => Ret true (fst st, crc32.Write (snd st) data).

Definition validate : M validatorState bool :=
  fun st =>
    Ret (match fst st with
         | Some c => bytes_eqb c (crc32.Sum (snd st))
         | None => true
         end) st.

Definition headerFromFirstChunk (data : bytes) : SnapshotHeader * bool :=
  match getUint64 data with
  | Some (n, rest) =>
      match unmarshal (firstn (Z.to_nat n) rest) with
      | inr h => (h, true)
      | inl _ => (emptyHeader, false)
      end
  | None => (emptyHeader, false)
  end.

Definition externals : Externals := {|
  SnapshotHeaderSize := 1024;
  CRC32IEEE := 0;
  HIGHWAY := 1;
  Marshal := marshal;
  Unmarshal := unmarshal;
  v2Trailer := trailer;
  IVValidatorState := validatorState;
  newV1Validator := fun h => (PayloadChecksum h, crc32.NewIEEE);
  newV2Validator := fun h => (None, h);
  strategyAddChunk := addChunk;
  strategyValidate := validate;
  getHeaderFromFirstChunk := headerFromFirstChunk
|}.

(** A payload of ten bytes in two chunks. *)
Definition chunks : list bytes :=
  [ [x64; x72; x61; x67; x6f; x6e]; [x62; x6f; x61; x74] ].

Definition path : string := "snapshot.gbsnap".


Definition payload : bytes := concat chunks.

(** The version-2 snapshot of [chunks], as [writeSnapshot] leaves it. *)
Definition written : Disk :=
  final (writeSnapshot (E := externals) path 2 chunks 4 6 1700000000
                       emptyDisk).

(** Its header before and after the header checksum is filled in, with
    the two serialized records. *)
Definition header0 : SnapshotHeader :=
  unsignedHeader (E := externals) 2 payload 4 6 1700000000.

Definition record0 : bytes :=
  match marshal header0 with
  | inr b => b
  | inl _ => []
  end.

Definition header : SnapshotHeader :=
  set_HeaderChecksum header0 (Some (checksumOf record0)).

Definition record : bytes :=
  match marshal header with
  | inr b => b
  | inl _ => []
  end.

(** A reader just opened, and the same reader after [GetHeader] on
    [written]. *)
Definition reader0 : SnapshotReader :=
  mkSnapshotReader None (mkFile path 0).

Definition reader1 : SnapshotReader :=
  mkSnapshotReader
    (Some (v2reader (io.LimitedReader 10) crc32.NewIEEE))
    (mkFile path 1024).

(** A writer that has written and flushed [chunks], and its disk. *)
Definition writer : SnapshotWriter :=
  mkSnapshotWriter (v2writer (crc32.Write crc32.NewIEEE payload))
                   (mkFile path 1050) path.

Definition flushed : Disk :=
  store emptyDisk path
        (make 1024 ++ payload
              ++ trailer (crc32.Write crc32.NewIEEE payload)).

(** The same externals with a header region of 64 bytes, too small for
    the record. *)
Definition cramped : Externals := {|
  SnapshotHeaderSize := 64;
  CRC32IEEE := 0;
  HIGHWAY := 1;
  Marshal := marshal;
  Unmarshal := unmarshal;
  v2Trailer := trailer;
  IVValidatorState := validatorState;
  newV1Validator := fun h => (PayloadChecksum h, crc32.NewIEEE);
  newV2Validator := fun h => (None, h);
  strategyAddChunk := addChunk;
  strategyValidate := validate;
  getHeaderFromFirstChunk := headerFromFirstChunk
|}.

(** [written] cut down to 200 bytes. *)
Definition truncated : Disk :=
  store emptyDisk path (firstn 200 (content written path)).

(** The first chunk of [written], and a validator that has taken it. *)
Definition firstChunk : bytes := firstn 200 (content written path).

Definition bound : ValidatorMemory (E := externals) :=
  final (AddChunk (E := externals) firstChunk 0 NewSnapshotValidator).

(** A file of three bytes, too short for a length prefix. *)
Definition stub : Disk := store emptyDisk path [x01; x02; x03].

(** A file whose header record names version 3. *)
Definition foreignHeader : SnapshotHeader :=
  mkSnapshotHeader 4 6 0 None 0 3 None.

Definition foreignRecord : bytes :=
  match marshal foreignHeader with
  | inr b => b
  | inl _ => []
  end.

Definition foreignFile : bytes :=
  LittleEndian.PutUint64 (Z.of_nat (length foreignRecord))
    ++ foreignRecord ++ make 1000.

Definition foreign : Disk := store emptyDisk path foreignFile.

(** A file whose header was never saved: the placeholder and a payload. *)
Definition unsaved : Disk := store emptyDisk path (make 1024 ++ payload).

(** A disk that holds another file beside the snapshot. *)
Definition shared : Disk := store flushed "other" [x2a].

End Sample.

(** * Properties *)

(** The check value of the CRC-32/ISO-HDLC catalogue entry. *)
Example crc32_check_value :
  crc32.ChecksumIEEE [x31; x32; x33; x34; x35; x36; x37; x38; x39]
  = 0xCBF43926.
Proof. vm_compute. reflexivity. Qed.

Example sample_write_then_read_v1 :
  match writeSnapshot (E := Sample.externals) Sample.path 1 Sample.chunks 4 6 1700000000 emptyDisk with
  | Ret None d =>
      match readSnapshot (E := Sample.externals) Sample.path 4 10 d with
      | Ret (_, p, e) _ => (p, e) = (concat Sample.chunks, Some EOF)
      | Panic _ _ => False
      end
  | _ => False
  end.
Proof. vm_compute. reflexivity. Qed.

Example sample_write_then_read_v2 :
  match writeSnapshot (E := Sample.externals) Sample.path 2 Sample.chunks 4 6 1700000000 emptyDisk with
  | Ret None d =>
      match readSnapshot (E := Sample.externals) Sample.path 4 10 d with
      | Ret (_, p, e) _ => (p, e) = (concat Sample.chunks, Some EOF)
      | Panic _ _ => False
      end
  | _ => False
  end.
Proof. vm_compute. reflexivity. Qed.

Section Dispatch.

Context {E : Externals}.

Lemma getChecksum_default {S} (s : S) :
  getChecksum CRC32IEEE s = Ret newCRC32Hash s.
Proof. unfold getChecksum. rewrite Z.eqb_refl. reflexivity. Qed.

Lemma getChecksum_other {S} (t : Z) (s : S) :
  t <> CRC32IEEE ->
  getChecksum t s
  = Panic (if t =? HIGHWAY then "highway hash not supported yet"
           else "not supported checksum type %d") s.
Proof.
  intros Ht. unfold getChecksum.
  destruct (Z.eqb_spec t CRC32IEEE) as [->|_]; [contradiction|].
  destruct (t =? HIGHWAY); reflexivity.
Qed.

Lemma version_tests (ver : Z) :
  ver <> 1 -> ver <> 2 ->
  (ver =? v1SnapshotVersion) = false /\ (ver =? v2SnapshotVersion) = false.
Proof.
  unfold v1SnapshotVersion, v2SnapshotVersion. intros H1 H2.
  split; apply Z.eqb_neq; assumption.
Qed.

(** C6: every checksum identifier other than CRC32IEEE makes
    [getChecksum] panic, the reserved HIGHWAY with a message of its own,
    and every version other than 1 and 2 makes the dispatch to a writer, a
    reader and a validator strategy panic; neither mapping has a default
    case that returns. *)
Theorem unsupported_tags_panic
        (S : Type) (s : S) (t ver : Z) (rd : io.Reader)
        (header : SnapshotHeader) (m : ValidatorMemory) :
  t <> CRC32IEEE ->
  HIGHWAY <> CRC32IEEE ->
  ver <> 1 -> ver <> 2 ->
  Version header = ver ->
  (exists msg, getChecksum t s = Panic msg s)
  /\ getChecksum HIGHWAY s = Panic "highway hash not supported yet" s
  /\ getVersionWriter ver s = Panic "unsupported v" s
  /\ getVersionReader rd ver s = Panic "unsupported v" s
  /\ getVersionValidator header m = Panic "unsupported v" m.
Proof.
  intros Ht Hhw H1 H2 Hv.
  destruct (version_tests ver H1 H2) as [T1 T2].
  repeat split.
  - eexists. apply getChecksum_other. exact Ht.
  - rewrite (getChecksum_other HIGHWAY s Hhw), Z.eqb_refl. reflexivity.
  - unfold getVersionWriter. rewrite T1, T2. reflexivity.
  - unfold getVersionReader. rewrite T1, T2. reflexivity.
  - unfold getVersionValidator. rewrite Hv, T1, T2. reflexivity.
Qed.

End Dispatch.

Lemma unsupported_tags_panic_witness :
  (exists msg, getChecksum (E := Sample.externals) 7 tt = Panic msg tt)
  /\ getChecksum (E := Sample.externals) 1 tt
     = Panic "highway hash not supported yet" tt
  /\ getVersionWriter 3 tt = Panic "unsupported v" tt
  /\ getVersionReader io.FileReader 3 tt
     = Panic "unsupported v" tt
  /\ getVersionValidator (E := Sample.externals)
       (mkSnapshotHeader 0 0 0 None 0 3 None) NewSnapshotValidator
     = Panic "unsupported v" NewSnapshotValidator.
Proof.
  apply (unsupported_tags_panic (E := Sample.externals) unit tt 7 3
           io.FileReader (mkSnapshotHeader 0 0 0 None 0 3 None)
           NewSnapshotValidator);
    simpl; try lia; reflexivity.
Defined.


(** ** Bytes, checksums and files *)


Lemma Z_of_byte_of_Z (z : Z) : Z_of_byte (byte_of_Z z) = z mod 256.
Proof.
  unfold Z_of_byte, byte_of_Z.
  assert (Hr : 0 <= z mod 256 < 256) by (apply Z.mod_pos_bound; lia).
  destruct (Byte.of_N (Z.to_N (z mod 256))) as [b|] eqn:Hb.
  - apply Byte.to_of_N in Hb. rewrite Hb. lia.
  - apply Byte.of_N_None_iff in Hb. lia.
Qed.

Lemma Z_of_byte_range (b : byte) : 0 <= Z_of_byte b < 256.
Proof.
  unfold Z_of_byte. pose proof (Byte.to_N_bounded b). lia.
Qed.

Lemma byte_of_Z_of_byte (b : byte) : byte_of_Z (Z_of_byte b) = b.
Proof.
  unfold byte_of_Z. rewrite Z.mod_small by apply Z_of_byte_range.
  unfold Z_of_byte. rewrite N2Z.id, Byte.of_to_N. reflexivity.
Qed.

Lemma byte_lane_bit (x k n : Z) :
  0 <= k -> 0 <= n ->
  Z.testbit (Z.shiftl (Z_of_byte (byte_of_Z (Z.shiftr x k))) k) n
  = (k <=? n) && (n <? k + 8) && Z.testbit x n.
Proof.
  intros Hk Hn. rewrite Z_of_byte_of_Z, Z.shiftl_spec by lia.
  destruct (Z.leb_spec k n) as [Hkn|Hkn].
  - change 256 with (2 ^ 8). rewrite Z.testbit_mod_pow2 by lia.
    rewrite Z.shiftr_spec by lia. replace (n - k + k) with n by lia.
    simpl. f_equal. 
    destruct (Z.ltb_spec (n - k) 8), (Z.ltb_spec n (k + 8)); try reflexivity; lia.
  - rewrite Z.testbit_neg_r by lia. reflexivity.
Qed.

Ltac resolve_tests :=
  repeat match goal with
         | |- context [?a <=? ?b] =>
             first [ replace (a <=? b) with true
                       by (symmetry; apply Z.leb_le; lia)
                   | replace (a <=? b) with false
                       by (symmetry; apply Z.leb_gt; lia) ]
         | |- context [?a <? ?b] =>
             first [ replace (a <? b) with true
                       by (symmetry; apply Z.ltb_lt; lia)
                   | replace (a <? b) with false
                       by (symmetry; apply Z.ltb_ge; lia) ]
         end.

Lemma Uint64_PutUint64 (x : Z) :
  0 <= x < 2 ^ 64 ->
  LittleEndian.Uint64 (LittleEndian.PutUint64 x) = x.
Proof.
  intros Hx. unfold LittleEndian.PutUint64, LittleEndian.Uint64.
  rewrite <- (Z.shiftl_0_r (Z_of_byte (byte_of_Z x))).
  rewrite <- (Z.shiftr_0_r x) at 1.
  apply Z.bits_inj'. intros n Hn.
  rewrite !Z.lor_spec, !byte_lane_bit by lia.
  assert (Hhigh : 64 <= n -> Z.testbit x n = false).
  { intros Hge. rewrite <- (Z.mod_small x (2 ^ 64)) by lia.
    rewrite Z.testbit_mod_pow2 by lia.
    destruct (Z.ltb_spec n 64); [lia|reflexivity]. }
  destruct (Z.testbit x n) eqn:Hb.
  - assert (n < 64).
    { destruct (Z_lt_ge_dec n 64) as [Hlt|Hge]; [exact Hlt|].
      specialize (Hhigh ltac:(lia)). discriminate. }
    rewrite !andb_true_r.
    assert (Hlane : n < 8 \/ 8 <= n < 16 \/ 16 <= n < 24 \/ 24 <= n < 32
                    \/ 32 <= n < 40 \/ 40 <= n < 48 \/ 48 <= n < 56
                    \/ 56 <= n) by lia.
    repeat (destruct Hlane as [Hlane|Hlane]); resolve_tests; reflexivity.
  - rewrite !andb_false_r. reflexivity.
Qed.

Lemma PutUint64_length (x : Z) :
  length (LittleEndian.PutUint64 x) = 8%nat.
Proof. reflexivity. Qed.


Lemma bytes_eqb_eq (a b : bytes) : bytes_eqb a b = true <-> a = b.
Proof.
  unfold bytes_eqb. destruct (list_eq_dec Byte.byte_eq_dec a b); split;
    intros; congruence.
Qed.

Lemma bytes_eqb_refl (a : bytes) : bytes_eqb a a = true.
Proof. apply bytes_eqb_eq. reflexivity. Qed.

Lemma crc32_update_app (c : Z) (a b : bytes) :
  crc32.update (crc32.update c a) b = crc32.update c (a ++ b).
Proof.
  unfold crc32.update. rewrite fold_left_app. f_equal. f_equal.
  rewrite Z.lxor_assoc, Z.lxor_nilpotent, Z.lxor_0_r. reflexivity.
Qed.

Lemma crc32_update_nil (c : Z) : crc32.update c [] = c.
Proof.
  unfold crc32.update. simpl.
  rewrite Z.lxor_assoc, Z.lxor_nilpotent, Z.lxor_0_r. reflexivity.
Qed.

Lemma crc32_Write_app (h : crc32.digest) (a b : bytes) :
  crc32.Write (crc32.Write h a) b = crc32.Write h (a ++ b).
Proof. unfold crc32.Write. simpl. rewrite crc32_update_app. reflexivity. Qed.

Lemma crc32_Write_nil (h : crc32.digest) : crc32.Write h [] = h.
Proof.
  unfold crc32.Write. rewrite crc32_update_nil. destruct h. reflexivity.
Qed.

Lemma crc32_Sum_length (h : crc32.digest) : length (crc32.Sum h) = 4%nat.
Proof. reflexivity. Qed.

(** pwrite *)

Lemma pwrite_at_end (c b : bytes) :
  pwrite c (Z.of_nat (length c)) b = c ++ b.
Proof.
  unfold pwrite. rewrite Nat2Z.id, firstn_all, Nat.sub_diag.
  rewrite skipn_all2 by lia. simpl. rewrite app_nil_r. reflexivity.
Qed.

Lemma pwrite_zero (c b : bytes) :
  pwrite c 0 b = b ++ skipn (length b) c.
Proof. unfold pwrite. simpl. reflexivity. Qed.

Lemma pwrite_after_prefix (a c b : bytes) :
  pwrite (a ++ c) (Z.of_nat (length a)) b = a ++ pwrite c 0 b.
Proof.
  unfold pwrite. rewrite Nat2Z.id. simpl.
  rewrite firstn_app, firstn_all, Nat.sub_diag, firstn_O, app_nil_r.
  rewrite length_app.
  replace (length a - (length a + length c))%nat with 0%nat by lia.
  rewrite skipn_app, skipn_all2 by lia.
  replace (length a + length b - length a)%nat with (length b) by lia.
  reflexivity.
Qed.

Lemma content_store_same (d : Disk) (p : string) (c : bytes) :
  content (store d p c) p = c.
Proof. unfold content, store. rewrite String.eqb_refl. reflexivity. Qed.

Lemma content_store_other (d : Disk) (p q : string) (c : bytes) :
  q <> p -> content (store d p c) q = content d q.
Proof.
  intros Hq. unfold content, store.
  destruct (String.eqb_spec q p); [contradiction|reflexivity].
Qed.

Lemma File_eta (f : File) : mkFile (fname f) (fpos f) = f.
Proof. destruct f. reflexivity. Qed.

Lemma os_Read_spec (f : File) (n : nat) (d : Disk) :
  0 <= fpos f ->
  os.Read f n d
  = Ret (firstn n (ahead f d),
         match n, ahead f d with
         | S _, [] => Some EOF
         | _, _ => None
         end,
         mkFile (fname f) (fpos f + Z.of_nat (length (firstn n (ahead f d)))))
        d.
Proof.
  intros Hp. unfold os.Read. fold (ahead f d).
  destruct n as [|n].
  - simpl. rewrite Z.add_0_r, File_eta. reflexivity.
  - destruct (ahead f d) as [|x l].
    + simpl. rewrite Z.add_0_r, File_eta. reflexivity.
    + reflexivity.
Qed.

Lemma ahead_advance (f : File) (d : Disk) (k : nat) :
  0 <= fpos f ->
  ahead (mkFile (fname f) (fpos f + Z.of_nat k)) d = skipn k (ahead f d).
Proof.
  intros Hp. unfold ahead. simpl. rewrite skipn_skipn.
  f_equal. lia.
Qed.

Lemma ReadFull_enough (f : File) (n : nat) (d : Disk) :
  0 <= fpos f ->
  (n <= length (ahead f d))%nat ->
  io.ReadFull f n d
  = Ret (firstn n (ahead f d), None, mkFile (fname f) (fpos f + Z.of_nat n)) d.
Proof.
  intros Hp Hn. unfold io.ReadFull, bind. 
  assert (Hloop : io.readLoop (S n) f n [] d
          = Ret (firstn n (ahead f d), None,
                 mkFile (fname f) (fpos f + Z.of_nat n)) d).
  { destruct n as [|n].
    - simpl. rewrite Z.add_0_r, File_eta. reflexivity.
    - cbn [io.readLoop]. cbn [length]. 
      replace (0 <? S n)%nat with true by reflexivity.
      unfold bind. rewrite Nat.sub_0_r, os_Read_spec by assumption.
      destruct (ahead f d) as [|x l] eqn:Ha; [simpl in Hn; lia|].
      rewrite length_firstn, Nat.min_l by assumption.
      cbn [app]. destruct n as [|n'].
      + reflexivity.
      + cbn [io.readLoop]. rewrite length_firstn, Nat.min_l by assumption.
        rewrite Nat.ltb_irrefl. reflexivity. }
  rewrite Hloop. rewrite length_firstn, Nat.min_l by assumption.
  rewrite Nat.leb_refl. reflexivity.
Qed.

Lemma ReadFull_short (f : File) (n : nat) (d : Disk) :
  0 <= fpos f ->
  (length (ahead f d) < n)%nat ->
  io.ReadFull f n d
  = Ret (ahead f d, Some (shortRead (ahead f d)),
         mkFile (fname f) (fpos f + Z.of_nat (length (ahead f d)))) d.
Proof.
  intros Hp Hn. unfold io.ReadFull, bind.
  destruct n as [|n]; [lia|].
  cbn [io.readLoop length].
  replace (0 <? S n)%nat with true by reflexivity.
  unfold bind. rewrite Nat.sub_0_r, os_Read_spec by assumption.
  destruct (ahead f d) as [|x l] eqn:Ha.
  - reflexivity.
  - rewrite firstn_all2 by lia. cbn [app].
    destruct n as [|n']; [simpl in Hn; lia|].
    cbn [io.readLoop].
    replace (length (x :: l) <? S (S n'))%nat with true
      by (symmetry; apply Nat.ltb_lt; lia).
    unfold bind. rewrite os_Read_spec by (simpl; lia).
    rewrite ahead_advance by assumption.
    rewrite Ha, skipn_all.
    replace (S (S n') - length (x :: l))%nat with
      (S (S n' - length (x :: l)))%nat by lia.
    cbn [firstn]. unfold ret. rewrite app_nil_r.
    replace (S (S n') <=? length (x :: l))%nat with false
      by (symmetry; apply Nat.leb_gt; lia).
    cbn [shortRead fname fpos length]. rewrite Z.add_0_r. reflexivity.
Qed.

(** ** The chunk validator *)

Section ValidatorProperties.

Context {E : Externals}.

Lemma call_keeps_v {A} (l : nat) (method : M IVValidatorState A)
      (m : ValidatorMemory) :
  v (final (call l method m)) = v m.
Proof.
  unfold call. destruct (nth_error (strategies m) l); [|reflexivity].
  destruct (method i); reflexivity.
Qed.

Lemma getVersionValidator_result (header : SnapshotHeader)
      (m : ValidatorMemory) :
  (exists msg, getVersionValidator header m = Panic msg m)
  \/ (exists st,
        getVersionValidator header m
        = Ret (length (strategies m))
              (mkValidatorMemory (strategies m ++ [st]) (v m))).
Proof.
  unfold getVersionValidator.
  destruct (Version header =? v1SnapshotVersion).
  - right. eexists. reflexivity.
  - destruct (Version header =? v2SnapshotVersion).
    + unfold bind, getChecksum.
      destruct (ChecksumType header =? CRC32IEEE).
      * right. eexists. reflexivity.
      * left. destruct (ChecksumType header =? HIGHWAY);
          eexists; reflexivity.
    + left. eexists. reflexivity.
Qed.

Lemma AddChunk_zero (data : bytes) (m : ValidatorMemory) :
  AddChunk data 0 m
  = if snd (getHeaderFromFirstChunk data) then
      match v m with
      | Some _ => Ret false m
      | None =>
          match getVersionValidator (fst (getHeaderFromFirstChunk data)) m
          with
          | Ret l m' =>
              call l (strategyAddChunk data 0)
                   (mkValidatorMemory (strategies m') (Some l))
          | Panic msg m' => Panic msg m'
          end
      end
    else Ret false m.
Proof.
  unfold AddChunk. rewrite Z.eqb_refl.
  destruct (getHeaderFromFirstChunk data) as [h ok]. simpl.
  destruct ok; [|reflexivity]. unfold bind, get_v, set_v. cbn.
  destruct (v m); reflexivity.
Qed.

Lemma AddChunk_later (data : bytes) (chunkID : Z) (m : ValidatorMemory) :
  chunkID <> 0 ->
  AddChunk data chunkID m
  = match v m with
    | None => Ret false m
    | Some l => call l (strategyAddChunk data chunkID) m
    end.
Proof.
  intros Hid. unfold AddChunk. apply Z.eqb_neq in Hid. rewrite Hid.
  unfold bind, get_v. cbn. destruct (v m); reflexivity.
Qed.

Lemma Validate_eq (m : ValidatorMemory) :
  Validate m
  = match v m with
    | None => Ret false m
    | Some l => call l strategyValidate m
    end.
Proof. unfold Validate, bind, get_v. cbn. destruct (v m); reflexivity. Qed.

Lemma AddChunk_rejectedByState (data : bytes) (chunkID : Z)
      (m : ValidatorMemory) :
  rejectedByState data chunkID m -> AddChunk data chunkID m = Ret false m.
Proof.
  unfold rejectedByState.
  intros [(-> & Hv & Hok) | [(Hid & Hv) | (-> & Hv)]].
  - rewrite AddChunk_zero, Hok. reflexivity.
  - rewrite (AddChunk_later _ _ _ Hid), Hv. reflexivity.
  - rewrite AddChunk_zero.
    destruct (snd (getHeaderFromFirstChunk data)); [|reflexivity].
    destruct (v m); [reflexivity|contradiction].
Qed.

Lemma AddChunk_binding (data : bytes) (chunkID : Z) (m : ValidatorMemory) :
  v (final (AddChunk data chunkID m)) = v m
  \/ (v m = None /\ chunkID = 0
      /\ snd (getHeaderFromFirstChunk data) = true
      /\ v (final (AddChunk data chunkID m))
         = Some (length (strategies m))).
Proof.
  destruct (Z.eq_dec chunkID 0) as [->|Hid].
  - rewrite AddChunk_zero.
    destruct (snd (getHeaderFromFirstChunk data)); [|left; reflexivity].
    destruct (v m) eqn:Hv; [left; simpl; exact Hv|].
    destruct (getVersionValidator_result
                (fst (getHeaderFromFirstChunk data)) m)
      as [[msg ->] | [st ->]].
    + left. simpl. exact Hv.
    + right. rewrite call_keeps_v. simpl. auto.
  - rewrite (AddChunk_later _ _ _ Hid).
    destruct (v m) eqn:Hv; [|left; simpl; exact Hv].
    left. rewrite call_keeps_v. exact Hv.
Qed.

Lemma Validate_keeps_v (m : ValidatorMemory) :
  v (final (Validate m)) = v m.
Proof.
  rewrite Validate_eq. destruct (v m) eqn:Hv; [|simpl; exact Hv].
  rewrite call_keeps_v. exact Hv.
Qed.

Lemma runCall_bound (c : ValidatorCall) (m : ValidatorMemory) (l : nat) :
  v m = Some l -> v (runCall c m) = Some l.
Proof.
  intros Hv. destruct c as [data chunkID|]; simpl.
  - destruct (AddChunk_binding data chunkID m) as [->|(Hn & _)];
      congruence.
  - rewrite Validate_keeps_v. exact Hv.
Qed.

Lemma runCalls_bound (cs : list ValidatorCall) (m : ValidatorMemory)
      (l : nat) :
  v m = Some l -> v (runCalls cs m) = Some l.
Proof.
  unfold runCalls. revert m.
  induction cs as [|c cs IH]; intros m Hv; simpl; [exact Hv|].
  apply IH. apply runCall_bound. exact Hv.
Qed.

(** C7: while no chunk 0 has been accepted ([v] is [nil]), [AddChunk]
    with a chunk number above 0 returns false and leaves the memory as it
    was: no strategy validator is allocated and [v] stays [nil]; [Validate]
    then still returns false. *)
Theorem AddChunk_unbound_rejects_later_chunk
        (data : bytes) (chunkID : Z) (m : ValidatorMemory) :
  v m = None -> 0 < chunkID ->
  AddChunk data chunkID m = Ret false m
  /\ Validate (final (AddChunk data chunkID m)) = Ret false m.
Proof.
  intros Hv Hid.
  assert (Hr : AddChunk data chunkID m = Ret false m).
  { apply AddChunk_rejectedByState. right. left. split; [lia|exact Hv]. }
  split; [exact Hr|]. rewrite Hr. simpl.
  rewrite Validate_eq, Hv. reflexivity.
Qed.

(** C8: once a header has been established ([v] points to a strategy
    validator), [AddChunk] with chunk number 0 returns false whatever the
    bytes of the chunk are, and changes nothing. *)
Theorem AddChunk_bound_rejects_chunk_zero
        (data : bytes) (m : ValidatorMemory) (l : nat) :
  v m = Some l -> AddChunk data 0 m = Ret false m.
Proof.
  intros Hv. apply AddChunk_rejectedByState. right. right.
  split; [reflexivity|congruence].
Qed.

(** C9: [AddChunk] changes the binding [v] in one way only, from [nil] to
    a freshly allocated strategy validator, on a chunk 0 whose header was
    extracted; each of the three rejections it decides by itself returns
    false and leaves the whole memory as it was; and once [v] points to a
    strategy validator it points to that same one after any run of
    [AddChunk] and [Validate] calls. *)
Theorem validator_binding_changes_once
        (data : bytes) (chunkID : Z) (m : ValidatorMemory) :
  (v (final (AddChunk data chunkID m)) <> v m ->
   v m = None /\ chunkID = 0
   /\ snd (getHeaderFromFirstChunk data) = true
   /\ v (final (AddChunk data chunkID m)) = Some (length (strategies m)))
  /\ (rejectedByState data chunkID m ->
      AddChunk data chunkID m = Ret false m)
  /\ (forall l cs, v m = Some l -> v (runCalls cs m) = Some l).
Proof.
  split; [|split].
  - intros Hne. destruct (AddChunk_binding data chunkID m) as [Heq|Hb];
      [contradiction|exact Hb].
  - apply AddChunk_rejectedByState.
  - intros l cs. apply runCalls_bound.
Qed.

End ValidatorProperties.

Lemma AddChunk_unbound_rejects_later_chunk_witness :
  AddChunk (E := Sample.externals) [x01; x02] 1 NewSnapshotValidator
  = Ret false NewSnapshotValidator
  /\ Validate (final (AddChunk (E := Sample.externals) [x01; x02] 1
                        NewSnapshotValidator))
     = Ret false NewSnapshotValidator.
Proof.
  apply (AddChunk_unbound_rejects_later_chunk (E := Sample.externals)
           [x01; x02] 1 NewSnapshotValidator);
    [reflexivity | lia].
Defined.

Lemma AddChunk_bound_rejects_chunk_zero_witness :
  AddChunk (E := Sample.externals) Sample.firstChunk 0 Sample.bound
  = Ret false Sample.bound.
Proof.
  apply (AddChunk_bound_rejects_chunk_zero
           (E := Sample.externals) Sample.firstChunk Sample.bound 0%nat).
  vm_compute. reflexivity.
Defined.

Lemma validator_binding_changes_once_witness :
  AddChunk (E := Sample.externals) [x09] 5 NewSnapshotValidator
  = Ret false NewSnapshotValidator
  /\ v (runCalls (E := Sample.externals)
          [CallAddChunk Sample.firstChunk 0; CallValidate;
           CallAddChunk [x01] 1] Sample.bound) = Some 0%nat.
Proof.
  split.
  - apply (validator_binding_changes_once
             (E := Sample.externals) [x09] 5 NewSnapshotValidator).
    right. left. split; [discriminate | reflexivity].
  - apply (validator_binding_changes_once
             (E := Sample.externals) [] 0 Sample.bound).
    vm_compute. reflexivity.
Defined.

(** ** The header and its checksum *)


Section HeaderProperties.

Context {E : Externals}.

Lemma set_HeaderChecksum_twice (h : SnapshotHeader) (a b : slice) :
  set_HeaderChecksum (set_HeaderChecksum h a) b = set_HeaderChecksum h b.
Proof. reflexivity. Qed.

Lemma set_HeaderChecksum_same (h : SnapshotHeader) :
  set_HeaderChecksum h (HeaderChecksum h) = h.
Proof. destruct h. reflexivity. Qed.

Lemma getDefaultChecksum_eq {S} (s : S) :
  getDefaultChecksum s = Ret newCRC32Hash s.
Proof.
  unfold getDefaultChecksum, getChecksumType, defaultChecksumType,
    getChecksum.
  rewrite Z.eqb_refl. reflexivity.
Qed.

Lemma finalHeader_cases {S} (sw : SnapshotWriter) (smsz sz now : Z)
      (s : S) :
  let sh0 := initialHeader sw smsz sz now in
  finalHeader sw smsz sz now s
  = match Marshal sh0 with
    | inl err => Panic err s
    | inr data0 =>
        let sh := set_HeaderChecksum sh0 (Some (checksumOf data0)) in
        match Marshal sh with
        | inl err => Panic err s
        | inr data =>
            if Z.of_nat (length data) >? SnapshotHeaderSize - 8
            then Panic "snapshot header is too large" s
            else Ret (sh, data) s
        end
    end.
Proof.
  intros sh0. unfold finalHeader. fold sh0.
  destruct (Marshal sh0) as [err|data0]; [reflexivity|].
  unfold bind. rewrite getDefaultChecksum_eq. fold (checksumOf data0).
  destruct (Marshal _) as [err|data]; [reflexivity|].
  destruct (_ >? _); reflexivity.
Qed.

Lemma finalHeader_inv {S} (sw : SnapshotWriter) (smsz sz now : Z)
      (s s' : S) (sh : SnapshotHeader) (data : bytes) :
  finalHeader sw smsz sz now s = Ret (sh, data) s' ->
  exists data0,
    Marshal (initialHeader sw smsz sz now) = inr data0
    /\ sh = set_HeaderChecksum (initialHeader sw smsz sz now)
                               (Some (checksumOf data0))
    /\ Marshal sh = inr data
    /\ Z.of_nat (length data) <= SnapshotHeaderSize - 8
    /\ s' = s.
Proof.
  rewrite finalHeader_cases. cbv zeta.
  destruct (Marshal (initialHeader sw smsz sz now)) as [err|data0];
    [discriminate|].
  destruct (Marshal (set_HeaderChecksum _ _)) as [err|data1] eqn:Hm;
    [discriminate|].
  destruct (Z.gtb_spec (Z.of_nat (length data1)) (SnapshotHeaderSize - 8))
    as [Hgt|Hle]; [discriminate|].
  intros Heq. inversion Heq; subst. exists data0. rewrite Hm.
  repeat split; auto; lia.
Qed.

Lemma ValidateHeader_cases {S} (header : SnapshotHeader) (s : S) :
  ChecksumType header = CRC32IEEE ->
  ValidateHeader header s
  = match Marshal (set_HeaderChecksum header None) with
    | inl err => Panic err s
    | inr data0 =>
        if bytes_eqb (checksumOf data0)
                     (slice_bytes (HeaderChecksum header))
        then Ret tt s
        else Panic "corrupted snapshot header" s
    end.
Proof.
  intros Ht. unfold ValidateHeader.
  destruct (Marshal (set_HeaderChecksum header None)) as [err|data0];
    [reflexivity|].
  unfold bind. cbn [ChecksumType set_HeaderChecksum]. rewrite Ht.
  rewrite getChecksum_default. unfold bytesEqual. cbn [slice_bytes].
  fold (checksumOf data0).
  destruct (bytes_eqb _ _); reflexivity.
Qed.

(** What [SaveHeader] leaves in the file. *)
Lemma SaveHeader_cases (sw : SnapshotWriter) (smsz sz now : Z) (d : Disk) :
  SaveHeader sw smsz sz now d
  = match finalHeader sw smsz sz now d with
    | Panic msg d' => Panic msg d'
    | Ret (_, data) _ =>
        let lenbuf := LittleEndian.PutUint64 (Z.of_nat (length data)) in
        let name := fname (file sw) in
        Ret (None,
             mkSnapshotWriter
               (vw sw) (mkFile name (8 + Z.of_nat (length data))) (fp sw))
            (store (store d name (pwrite (content d name) 0 lenbuf)) name
                   (lenbuf ++ data
                      ++ skipn (8 + length data) (content d name)))
    end.
Proof.
  unfold SaveHeader. unfold bind at 1.
  destruct (finalHeader sw smsz sz now d) as [[sh data] d'|msg d'] eqn:Hf;
    [|reflexivity].
  apply finalHeader_inv in Hf. destruct Hf as (_ & _ & _ & _ & _ & ->).
  unfold os.Seek. change (0 <? 0) with false.
  cbn [bind ret os.Write fname fpos is_nil negb].
  rewrite content_store_same.
  unfold ret. rewrite PutUint64_length. f_equal.
  f_equal. rewrite Z.add_0_l.
  change (Z.of_nat 8) with (Z.of_nat (length (LittleEndian.PutUint64
                                     (Z.of_nat (length data))))).
  rewrite pwrite_zero, pwrite_after_prefix, pwrite_zero, skipn_skipn.
  rewrite PutUint64_length. do 3 f_equal. lia.
Qed.

(** C2: whenever [SaveHeader] returns, the header it built has its
    checksum computed over the record serialized with [HeaderChecksum] at
    its zero value, the record it left in the file behind the length prefix
    is that header serialized, and [ValidateHeader] accepts the header;
    with any other stored checksum [ValidateHeader] panics. *)
Theorem SaveHeader_header_validates
        (sw : SnapshotWriter) (smsz sz now : Z) (d : Disk)
        (err : error) (sw' : SnapshotWriter) (d' : Disk) :
  SaveHeader sw smsz sz now d = Ret (err, sw') d' ->
  exists sh data data0,
    finalHeader sw smsz sz now d = Ret (sh, data) d
    /\ firstn (length data) (skipn 8 (content d' (fname (file sw)))) = data
    /\ Marshal (set_HeaderChecksum sh None) = inr data0
    /\ HeaderChecksum sh = Some (checksumOf data0)
    /\ (forall (S : Type) (s : S), ValidateHeader sh s = Ret tt s)
    /\ (forall (S : Type) (s : S) (c : slice),
           slice_bytes c <> checksumOf data0 ->
           ValidateHeader (set_HeaderChecksum sh c) s
           = Panic "corrupted snapshot header" s).
Proof.
  intros Hs. rewrite SaveHeader_cases in Hs.
  destruct (finalHeader sw smsz sz now d) as [[sh data] d1|msg d1] eqn:Hf;
    [|discriminate].
  pose proof (finalHeader_inv _ _ _ _ _ _ _ _ Hf)
    as (data0 & Hm0 & Hsh & Hm & Hlen & ->).
  cbv zeta in Hs. apply (f_equal final) in Hs. cbn [final] in Hs.
  subst d'.
  assert (Hzero : set_HeaderChecksum sh None
                  = initialHeader sw smsz sz now).
  { rewrite Hsh. reflexivity. }
  assert (Hty : forall c, ChecksumType (set_HeaderChecksum sh c)
                          = CRC32IEEE).
  { intros c. rewrite Hsh. reflexivity. }
  exists sh, data, data0. repeat split.
  - rewrite content_store_same.
    change 8%nat with (length (LittleEndian.PutUint64
                                 (Z.of_nat (length data)))).
    rewrite skipn_app, skipn_all, Nat.sub_diag. cbn [app skipn].
    rewrite firstn_app, firstn_all, Nat.sub_diag, firstn_O.
    apply app_nil_r.
  - rewrite Hzero. exact Hm0.
  - rewrite Hsh. reflexivity.
  - intros S s. rewrite <- (set_HeaderChecksum_same sh).
    rewrite ValidateHeader_cases by apply Hty.
    rewrite set_HeaderChecksum_twice, Hzero, Hm0.
    rewrite set_HeaderChecksum_same, Hsh. cbn [HeaderChecksum set_HeaderChecksum slice_bytes].
    rewrite bytes_eqb_refl. reflexivity.
  - intros S s c Hc. rewrite ValidateHeader_cases by apply Hty.
    rewrite set_HeaderChecksum_twice, Hzero, Hm0.
    cbn [HeaderChecksum set_HeaderChecksum].
    destruct (bytes_eqb (checksumOf data0) (slice_bytes c)) eqn:Heq;
      [|reflexivity].
    apply bytes_eqb_eq in Heq. congruence.
Qed.

(** C3: when the final serialized header, checksum included, is longer
    than [SnapshotHeaderSize - 8], [SaveHeader] panics and the disk is as it
    was before the call: nothing was written, nothing truncated. *)
Theorem SaveHeader_oversized_panics
        (sw : SnapshotWriter) (smsz sz now : Z) (d : Disk)
        (data0 data : bytes) :
  Marshal (initialHeader sw smsz sz now) = inr data0 ->
  Marshal (set_HeaderChecksum (initialHeader sw smsz sz now)
                              (Some (checksumOf data0))) = inr data ->
  Z.of_nat (length data) > SnapshotHeaderSize - 8 ->
  SaveHeader sw smsz sz now d = Panic "snapshot header is too large" d.
Proof.
  intros Hm0 Hm Hlen. rewrite SaveHeader_cases, finalHeader_cases.
  cbv zeta. rewrite Hm0, Hm.
  destruct (Z.gtb_spec (Z.of_nat (length data)) (SnapshotHeaderSize - 8));
    [reflexivity|lia].
Qed.

End HeaderProperties.

Lemma SaveHeader_header_validates_witness :
  exists sh,
    HeaderChecksum sh <> None
    /\ ValidateHeader (E := Sample.externals) sh tt = Ret tt tt.
Proof.
  destruct (SaveHeader (E := Sample.externals) Sample.writer 4 6 1700000000
                       Sample.flushed) as [[err sw'] d'|msg d'] eqn:Hs.
  - destruct (SaveHeader_header_validates
                (E := Sample.externals) Sample.writer 4 6 1700000000
                Sample.flushed err sw' d' Hs)
      as (sh & data & data0 & _ & _ & _ & Hcs & Hok & _).
    exists sh. split; [rewrite Hcs; discriminate | apply Hok].
  - vm_compute in Hs. discriminate.
Defined.

Lemma SaveHeader_oversized_panics_witness :
  SaveHeader (E := Sample.cramped) Sample.writer 4 6 1700000000
             Sample.flushed
  = Panic "snapshot header is too large" Sample.flushed.
Proof.
  apply (SaveHeader_oversized_panics
           (E := Sample.cramped) Sample.writer 4 6 1700000000
           Sample.flushed Sample.record0 Sample.record);
    vm_compute; reflexivity.
Defined.

(** ** Reading *)


Lemma Uint64_nonneg (b : bytes) : 0 <= LittleEndian.Uint64 b.
Proof.
  unfold LittleEndian.Uint64.
  do 8 (destruct b as [|? b]; [lia|]).
  repeat (apply Z.lor_nonneg; split);
    try (apply Z.shiftl_nonneg); apply Z_of_byte_range.
Qed.

Section ReaderProperties.

Context {E : Externals}.

(** [GetHeader] on a freshly opened file, case by case. *)
Lemma GetHeader_cases (sr : SnapshotReader) (d : Disk) :
  let name := fname (rfile sr) in
  let c := content d name in
  let L := LittleEndian.Uint64 (firstn 8 c) in
  let stopped :=
    mkSnapshotReader (r sr) (mkFile name (Z.of_nat (length c))) in
  regionFits ->
  fpos (rfile sr) = 0 ->
  GetHeader sr d
  = if (length c <? 8)%nat
    then Ret (emptyHeader, Some (shortRead c), stopped) d
    else if L >? SnapshotHeaderSize - 8
    then Panic "invalid snapshot header size" d
    else if Z.of_nat (length c) <? 8 + L
    then Ret (emptyHeader, Some (shortRead (skipn 8 c)), stopped) d
    else
      match Unmarshal (firstn (Z.to_nat L) (skipn 8 c)) with
      | inl err => Panic err d
      | inr hdr =>
          (vr <- getVersionReader
                   (payloadReader (Version hdr) (Z.of_nat (length c)))
                   (Version hdr) ;;
           ret (hdr, None,
                mkSnapshotReader (Some vr)
                                 (mkFile name SnapshotHeaderSize))) d
      end.
Proof.
  intros name c L stopped [HH1 HH2] Hpos.
  pose proof (Uint64_nonneg (firstn 8 c)) as HL0. fold L in HL0.
  assert (Hahead : ahead (rfile sr) d = c).
  { unfold ahead. rewrite Hpos. reflexivity. }
  unfold GetHeader. unfold bind at 1.
  destruct (Nat.ltb_spec (length c) 8) as [Hlen|Hlen].
  { rewrite ReadFull_short by (rewrite ?Hahead; lia).
    rewrite Hahead, Hpos. reflexivity. }
  rewrite ReadFull_enough by (rewrite ?Hahead; lia).
  rewrite Hahead. cbn [is_nil negb].
  rewrite length_firstn, Nat.min_l by assumption. cbn [Nat.eqb negb].
  fold L.
  destruct (Z.gtb_spec L (SnapshotHeaderSize - 8)); [reflexivity|].
  unfold bind at 1.
  assert (Hahead8 : ahead (mkFile (fname (rfile sr))
                                  (fpos (rfile sr) + Z.of_nat 8)) d
                    = skipn 8 c).
  { rewrite ahead_advance, Hahead by lia. reflexivity. }
  destruct (Z.ltb_spec (Z.of_nat (length c)) (8 + L)) as [Hfit|Hfit].
  { rewrite ReadFull_short;
      [|cbn [fpos]; lia | rewrite Hahead8, length_skipn; lia].
    rewrite Hahead8. cbn [is_nil negb fname fpos]. unfold ret, stopped.
    rewrite length_skipn, Hpos. do 4 f_equal. fold name. f_equal. lia. }
  rewrite ReadFull_enough;
    [|cbn [fpos]; lia | rewrite Hahead8, length_skipn; lia].
  rewrite Hahead8. cbn [is_nil negb fname fpos].
  rewrite length_firstn, Nat.min_l by (rewrite length_skipn; lia).
  rewrite Nat.eqb_refl. cbn [negb].
  destruct (Unmarshal (firstn (Z.to_nat L) (skipn 8 c))) as [err|hdr];
    [reflexivity|].
  unfold os.Seek.
  destruct (Z.ltb_spec SnapshotHeaderSize 0); [lia|].
  unfold bind at 1. unfold ret at 1. cbn [is_nil negb fname].
  unfold to_uint64. rewrite Z.mod_small by lia. rewrite Z.eqb_refl.
  cbn [negb]. unfold payloadReader. fold name.
  destruct (Version hdr =? v2SnapshotVersion); [|reflexivity].
  unfold bind at 1. unfold os.StatSize. cbn [is_nil negb fname].
  fold name. fold c. reflexivity.
Qed.

End ReaderProperties.


(** What an [io.Reader] over the handle [f] can still deliver. *)
Lemma skipn_length_firstn {A} (n : nat) (l : list A) :
  skipn (length (firstn n l)) l = skipn n l.
Proof.
  rewrite length_firstn. destruct (Nat.le_ge_cases n (length l)).
  - rewrite Nat.min_l by assumption. reflexivity.
  - rewrite Nat.min_r by assumption.
    rewrite skipn_all, skipn_all2 by assumption. reflexivity.
Qed.

Lemma io_Read_spec (rd : io.Reader) (f : File) (n : nat) (d : Disk) :
  0 <= fpos f ->
  let rem := leftOf rd f d in
  exists e rd' f',
    io.Read rd f n d = Ret (firstn n rem, e, rd', f') d
    /\ 0 <= fpos f'
    /\ leftOf rd' f' d = skipn n rem
    /\ (rem = [] -> (0 < n)%nat -> e = Some EOF)
    /\ (rem <> [] -> e = None).
Proof.
  intros Hp rem. destruct rd as [|N]; unfold io.Read.
  - unfold bind. rewrite os_Read_spec by assumption.
    cbn [leftOf] in rem. fold rem.
    do 3 eexists. split; [reflexivity|].
    split; [cbn [fpos]; lia|]. split.
    + cbn [leftOf]. rewrite ahead_advance by assumption.
      apply skipn_length_firstn.
    + split.
      * intros -> Hn. destruct n; [lia|reflexivity].
      * intros Hne. destruct n; [reflexivity|].
        destruct rem; [contradiction|reflexivity].
  - destruct (Z.leb_spec N 0) as [HN|HN].
    + assert (Hrem : rem = []).
      { unfold rem. cbn [leftOf].
        replace (Z.to_nat N) with 0%nat by lia. reflexivity. }
      rewrite Hrem, firstn_nil, skipn_nil.
      exists (Some EOF), (io.LimitedReader N), f.
      split; [reflexivity|]. split; [assumption|]. split.
      * exact Hrem.
      * split; [reflexivity|contradiction].
    + set (n' := if Z.of_nat n >? N then Z.to_nat N else n).
      assert (Hn' : n' = Nat.min n (Z.to_nat N)).
      { unfold n'. destruct (Z.gtb_spec (Z.of_nat n) N); lia. }
      unfold bind. rewrite os_Read_spec by assumption.
      assert (Hb : firstn n' (ahead f d) = firstn n rem).
      { unfold rem. cbn [leftOf]. rewrite firstn_firstn, Hn'. reflexivity. }
      rewrite Hb.
      do 3 eexists. split; [reflexivity|].
      split; [cbn [fpos]; lia|]. split.
      * cbn [leftOf]. rewrite ahead_advance by assumption.
        rewrite <- (skipn_length_firstn n rem).
        generalize (length (firstn n rem)). intros k.
        unfold rem. cbn [leftOf]. rewrite skipn_firstn_comm. f_equal. lia.
      * assert (Hiff : rem = [] <-> ahead f d = []).
        { unfold rem. cbn [leftOf]. destruct (ahead f d).
          - rewrite firstn_nil. tauto.
          - destruct (Z.to_nat N) eqn:HtN; [lia|]. cbn [firstn].
            split; discriminate. }
        split.
        -- intros Hr Hn. apply Hiff in Hr. rewrite Hr.
           destruct n' eqn:Hn0; [lia|reflexivity].
        -- intros Hne. destruct n'; [reflexivity|].
           destruct (ahead f d); [|reflexivity].
           exfalso. apply Hne. apply Hiff. reflexivity.
Qed.

Section Reading.

Context {E : Externals}.

Lemma IVReader_with_source vr rd h :
  IVReader_source (IVReader_with vr rd h) = rd.
Proof. destruct vr; reflexivity. Qed.

Lemma IVReader_with_hash vr rd h :
  IVReader_hash (IVReader_with vr rd h) = h.
Proof. destruct vr; reflexivity. Qed.

Lemma SnapshotReader_Read_spec (sr : SnapshotReader) (n : nat) (d : Disk)
      (rem : bytes) (h : crc32.digest) :
  reading sr d rem h ->
  exists e sr',
    SnapshotReader_Read sr n d = Ret (firstn n rem, e, sr') d
    /\ reading sr' d (skipn n rem) (crc32.Write h (firstn n rem))
    /\ (rem = [] -> (0 < n)%nat -> e = Some EOF)
    /\ (rem <> [] -> e = None).
Proof.
  intros (Hp & vr & Hr & Hrem & Hh).
  unfold SnapshotReader_Read. rewrite Hr.
  unfold bind at 1. unfold IVReader_Read. unfold bind at 1.
  destruct (io_Read_spec (IVReader_source vr) (rfile sr) n d Hp)
    as (e & rd' & f' & Heq & Hp' & Hleft & He1 & He2).
  rewrite Heq. cbn [ret]. rewrite Hrem in *.
  exists e. eexists. split; [reflexivity|].
  split; [|split; assumption].
  split; [exact Hp'|]. eexists. split; [reflexivity|].
  cbn [rfile]. rewrite IVReader_with_source, IVReader_with_hash, Hh.
  split; [exact Hleft|reflexivity].
Qed.

Lemma ReadMany_prefix (lens : list nat) (sr : SnapshotReader) (d : Disk)
      (rem : bytes) (h : crc32.digest) :
  reading sr d rem h ->
  exists out rest sr',
    ReadMany sr lens d = Ret (out, sr') d
    /\ rem = out ++ rest
    /\ reading sr' d rest (crc32.Write h out).
Proof.
  revert sr rem h. induction lens as [|n lens IH]; intros sr rem h Hr.
  - exists [], rem, sr. cbn [ReadMany ret app].
    rewrite crc32_Write_nil. auto.
  - destruct (SnapshotReader_Read_spec sr n d rem h Hr)
      as (e & sr1 & Heq & Hr1 & _).
    destruct (IH sr1 _ _ Hr1) as (out & rest & sr2 & Heq2 & Hsplit & Hr2).
    exists (firstn n rem ++ out), rest, sr2.
    cbn [ReadMany]. unfold bind at 1. rewrite Heq.
    unfold bind at 1. rewrite Heq2. cbn [ret].
    split; [reflexivity|]. split.
    + rewrite <- app_assoc, <- Hsplit, firstn_skipn. reflexivity.
    + rewrite <- crc32_Write_app. exact Hr2.
Qed.

Lemma ReadToEnd_all (fuel : nat) (sr : SnapshotReader) (bufsz : nat)
      (acc : bytes) (d : Disk) (rem : bytes) (h : crc32.digest) :
  reading sr d rem h ->
  (0 < bufsz)%nat ->
  (length rem < fuel)%nat ->
  exists sr',
    ReadToEnd fuel sr bufsz acc d = Ret (acc ++ rem, Some EOF, sr') d
    /\ reading sr' d [] (crc32.Write h rem).
Proof.
  intros Hr Hb. revert sr acc rem h Hr.
  induction fuel as [|fuel IH]; intros sr acc rem h Hr Hfuel; [lia|].
  destruct (SnapshotReader_Read_spec sr bufsz d rem h Hr)
    as (e & sr1 & Heq & Hr1 & He1 & He2).
  cbn [ReadToEnd]. unfold bind at 1. rewrite Heq.
  destruct rem as [|x rem'] eqn:Hrem.
  - rewrite (He1 eq_refl Hb). rewrite firstn_nil in *. cbn [ret].
    exists sr1. split; [reflexivity|]. rewrite skipn_nil in Hr1. exact Hr1.
  - rewrite He2 by discriminate. rewrite <- Hrem in *.
    destruct (IH sr1 (acc ++ firstn bufsz rem) _ _ Hr1) as (sr2 & Heq2 & Hr2).
    { rewrite length_skipn. subst rem. cbn [length] in *. lia. }
    exists sr2. rewrite Heq2. split.
    + rewrite <- app_assoc, firstn_skipn. reflexivity.
    + rewrite crc32_Write_app, firstn_skipn in Hr2. exact Hr2.
Qed.

End Reading.


Lemma wrap_int64_small (x : Z) :
  - 2 ^ 63 <= x < 2 ^ 63 -> wrap_int64 x = x.
Proof.
  intros Hx. unfold wrap_int64. rewrite Z.mod_small; lia.
Qed.

Lemma make_length (n : Z) : length (make n) = Z.to_nat n.
Proof. unfold make. apply repeat_length. Qed.

Lemma skipn_make_app (k : nat) (n : Z) (rest : bytes) :
  (k <= Z.to_nat n)%nat ->
  skipn k (make n ++ rest) = make (n - Z.of_nat k) ++ rest.
Proof.
  intros Hk. rewrite skipn_app, make_length.
  replace (k - Z.to_nat n)%nat with 0%nat by lia. cbn [skipn].
  f_equal. unfold make.
  replace (Z.to_nat n) with (k + Z.to_nat (n - Z.of_nat k))%nat by lia.
  rewrite repeat_app, skipn_app, repeat_length, Nat.sub_diag.
  rewrite skipn_all2 by (rewrite repeat_length; lia).
  reflexivity.
Qed.

Section WriterProperties.

Context {E : Externals}.

Lemma IVWriter_hash_with (w : IVWriter) (h : crc32.digest) :
  IVWriter_hash (IVWriter_with_hash w h) = h.
Proof. destruct w; reflexivity. Qed.

Lemma IVWriter_with_with (w : IVWriter) (h h' : crc32.digest) :
  IVWriter_with_hash (IVWriter_with_hash w h) h' = IVWriter_with_hash w h'.
Proof. destruct w; reflexivity. Qed.

Lemma IVWriter_with_same (w : IVWriter) :
  IVWriter_with_hash w (IVWriter_hash w) = w.
Proof. destruct w; reflexivity. Qed.

Lemma os_Write_atEnd (f : File) (b : bytes) (d : Disk) :
  fpos f = Z.of_nat (length (content d (fname f))) ->
  os.Write f b d
  = Ret (Z.of_nat (length b), None,
         mkFile (fname f) (Z.of_nat (length (content d (fname f) ++ b))))
        (store d (fname f) (content d (fname f) ++ b)).
Proof.
  intros Hp. unfold os.Write. rewrite Hp, pwrite_at_end, length_app.
  rewrite Nat2Z.inj_add. reflexivity.
Qed.

Lemma WriteAll_appends (chunks : list bytes) (sw : SnapshotWriter)
      (d : Disk) :
  atEnd sw d ->
  exists d',
    let name := fname (file sw) in
    let c' := content d name ++ concat chunks in
    WriteAll sw chunks d
    = Ret (None,
           mkSnapshotWriter
             (IVWriter_with_hash
                (vw sw) (crc32.Write (IVWriter_hash (vw sw))
                                     (concat chunks)))
             (mkFile name (Z.of_nat (length c'))) (fp sw)) d'
    /\ content d' name = c'.
Proof.
  revert sw d. induction chunks as [|c cs IH]; intros sw d Hend.
  - exists d. cbn [WriteAll concat ret]. rewrite app_nil_r.
    rewrite crc32_Write_nil, IVWriter_with_same.
    unfold atEnd in Hend. rewrite <- Hend, File_eta.
    destruct sw; auto.
  - cbn [WriteAll]. unfold bind at 1. unfold SnapshotWriter_Write.
    unfold bind at 1. unfold IVWriter_Write. unfold bind at 1.
    rewrite os_Write_atEnd by exact Hend. cbn [ret is_nil].
    set (sw1 := mkSnapshotWriter _ _ _).
    set (d1 := store _ _ _).
    assert (Hend1 : atEnd sw1 d1).
    { unfold atEnd, sw1, d1. cbn [file fname fpos].
      rewrite content_store_same. reflexivity. }
    destruct (IH sw1 d1 Hend1) as (d' & Heq & Hc).
    exists d'. cbv zeta in *. rewrite Heq.
    unfold sw1 at 1 2 3 4 5. cbn [vw file fp fname].
    unfold sw1, d1 in Hc. cbn [file fname] in Hc.
    rewrite content_store_same in Hc. rewrite Hc.
    unfold d1. rewrite content_store_same.
    rewrite IVWriter_hash_with, IVWriter_with_with, crc32_Write_app.
    cbn [concat]. rewrite <- !app_assoc. auto.
Qed.

Lemma NewSnapshotWriter_ok (path : string) (version : Z) (d : Disk) :
  version = 1 \/ version = 2 ->
  exists d1,
    NewSnapshotWriter path version d
    = Ret (Some (mkSnapshotWriter
                   (freshWriter version)
                   (mkFile path
                           (Z.of_nat (length (make SnapshotHeaderSize))))
                   path), None) d1
    /\ content d1 path = make SnapshotHeaderSize.
Proof.
  intros Hv. unfold NewSnapshotWriter. unfold bind at 1.
  unfold os.Create. cbn [is_nil negb]. unfold bind at 1.
  rewrite os_Write_atEnd
    by (cbn [fname fpos]; rewrite content_store_same; reflexivity).
  cbn [is_nil negb fname]. rewrite content_store_same. cbn [app].
  eexists. split.
  - unfold bind, getVersionWriter, freshWriter.
    destruct Hv as [-> | ->]; reflexivity.
  - apply content_store_same.
Qed.

Lemma Flush_appends (version : Z) (h : crc32.digest) (f : File)
      (path : string) (d : Disk) :
  let sw := mkSnapshotWriter (IVWriter_with_hash (freshWriter version) h)
                             f path in
  let t := if version =? v1SnapshotVersion then [] else v2Trailer h in
  atEnd sw d ->
  exists f' d',
    SnapshotWriter_Flush sw d
    = Ret (None, mkSnapshotWriter (vw sw) f' path) d'
    /\ fname f' = fname f
    /\ content d' (fname f) = content d (fname f) ++ t.
Proof.
  intros sw t Hend. unfold SnapshotWriter_Flush, IVWriter_Flush, sw, t.
  cbn [vw file fp]. unfold freshWriter.
  destruct (version =? v1SnapshotVersion).
  - cbn [IVWriter_with_hash newV1Wrtier]. exists f, d. cbn [bind ret].
    rewrite app_nil_r. auto.
  - cbn [IVWriter_with_hash newV2Writer]. unfold bind.
    rewrite os_Write_atEnd by exact Hend. cbn [ret].
    do 2 eexists. split; [reflexivity|]. cbn [fname].
    rewrite content_store_same. auto.
Qed.

Lemma GetVersion_fresh (version : Z) (h : crc32.digest) :
  version = 1 \/ version = 2 ->
  IVWriter_GetVersion (IVWriter_with_hash (freshWriter version) h)
  = version.
Proof. intros [-> | ->]; reflexivity. Qed.

(** The file a complete write leaves. *)
Lemma writeSnapshot_layout
      (path : string) (version : Z) (chunks : list bytes)
      (smsz sz now : Z) (d : Disk) (data0 data : bytes) :
  let payload := concat chunks in
  let sh0 := unsignedHeader version payload smsz sz now in
  let sh := set_HeaderChecksum sh0 (Some (checksumOf data0)) in
  version = 1 \/ version = 2 ->
  regionFits ->
  Marshal sh0 = inr data0 ->
  Marshal sh = inr data ->
  Z.of_nat (length data) <= SnapshotHeaderSize - 8 ->
  exists d',
    writeSnapshot path version chunks smsz sz now d = Ret None d'
    /\ content d' path
       = LittleEndian.PutUint64 (Z.of_nat (length data)) ++ data
         ++ make (SnapshotHeaderSize - 8 - Z.of_nat (length data))
         ++ payload ++ trailerOf version payload.
Proof.
  intros payload sh0 sh Hv [HH1 HH2] Hm0 Hm Hlen.
  unfold writeSnapshot. unfold bind at 1.
  destruct (NewSnapshotWriter_ok path version d Hv) as (d1 & -> & Hc1).
  set (sw1 := mkSnapshotWriter _ _ _).
  assert (Hend1 : atEnd sw1 d1).
  { unfold atEnd, sw1. cbn [file fname fpos]. rewrite Hc1. reflexivity. }
  destruct (WriteAll_appends chunks sw1 d1 Hend1) as (d2 & Heq2 & Hc2).
  cbv zeta in Heq2, Hc2. unfold bind at 1. rewrite Heq2.
  cbn [is_nil negb]. clear Heq2.
  unfold sw1 in Hc2 |- *. cbn [vw file fp fname] in Hc2 |- *.
  rewrite Hc1 in Hc2 |- *. fold payload in Hc2 |- *.
  replace (IVWriter_hash (freshWriter version)) with newCRC32Hash
    by (unfold freshWriter; destruct (version =? v1SnapshotVersion);
        reflexivity).
  set (h := crc32.Write newCRC32Hash payload).
  set (f2 := mkFile path _).
  destruct (Flush_appends version h f2 path d2) as (f3 & d3 & Heq3 & Hn3 & Hc3).
  { unfold atEnd. cbn [file fname fpos]. unfold f2. cbn [fname fpos].
    rewrite Hc2. reflexivity. }
  unfold bind at 1. rewrite Heq3. cbn [is_nil negb vw]. clear Heq3.
  unfold f2 in Hc3. cbn [fname] in Hc3. rewrite Hc2 in Hc3.
  fold (trailerOf version payload) in Hc3.
  set (sw3 := mkSnapshotWriter _ f3 path).
  assert (Hinit : initialHeader sw3 smsz sz now = sh0).
  { unfold initialHeader, sw3, sh0, unsignedHeader. cbn [vw].
    rewrite GetVersion_fresh by exact Hv.
    unfold IVWriter_GetPayloadSum. rewrite IVWriter_hash_with.
    reflexivity. }
  unfold bind at 1. rewrite SaveHeader_cases, finalHeader_cases.
  cbv zeta. rewrite Hinit, Hm0. fold sh. rewrite Hm.
  destruct (Z.gtb_spec (Z.of_nat (length data)) (SnapshotHeaderSize - 8));
    [lia|].
  cbn [is_nil negb]. unfold SnapshotWriter_Close.
  cbn [bind ret os.Sync os.SyncDir os.Close is_nil negb].
  eexists. split; [reflexivity|].
  unfold sw3. cbn [file]. rewrite Hn3. unfold f2. cbn [fname].
  rewrite content_store_same, Hc3, <- app_assoc.
  rewrite skipn_make_app by lia.
  replace (SnapshotHeaderSize - Z.of_nat (8 + length data))
    with (SnapshotHeaderSize - 8 - Z.of_nat (length data)) by lia.
  reflexivity.
Qed.

End WriterProperties.


Section ReadBack.

Context {E : Externals}.

Lemma payloadReader_exact (ver size : Z) :
  regionFits -> 0 <= size < 2 ^ 63 ->
  payloadReader ver size
  = if ver =? v2SnapshotVersion
    then io.LimitedReader (size - SnapshotHeaderSize - 16)
    else io.FileReader.
Proof.
  intros [H1 H2] Hs. unfold payloadReader.
  destruct (ver =? v2SnapshotVersion); [|reflexivity].
  rewrite (wrap_int64_small (size - SnapshotHeaderSize)) by lia.
  rewrite wrap_int64_small by lia. reflexivity.
Qed.

Lemma getVersionReader_supported {S} (rd : io.Reader) (ver : Z) (s : S) :
  ver = 1 \/ ver = 2 ->
  getVersionReader rd ver s
  = Ret (if ver =? v2SnapshotVersion then newV2Reader rd
         else newV1Reader rd) s.
Proof. intros [-> | ->]; reflexivity. Qed.

Lemma getVersionReader_cases {S} (rd : io.Reader) (ver : Z) (s : S) :
  (ver = 1 \/ ver = 2)
  \/ getVersionReader rd ver s = Panic "unsupported v" s.
Proof.
  unfold getVersionReader, v1SnapshotVersion, v2SnapshotVersion.
  destruct (Z.eqb_spec ver 1); [auto|].
  destruct (Z.eqb_spec ver 2); [auto|]. right. reflexivity.
Qed.

(** What a successful [GetHeader] on a fresh reader has done. *)
Lemma GetHeader_returned (sr sr' : SnapshotReader) (d d' : Disk)
      (hdr : SnapshotHeader) :
  let name := fname (rfile sr) in
  let c := content d name in
  let L := LittleEndian.Uint64 (firstn 8 c) in
  regionFits ->
  fpos (rfile sr) = 0 ->
  Z.of_nat (length c) < 2 ^ 63 ->
  GetHeader sr d = Ret (hdr, None, sr') d' ->
  d' = d
  /\ (8 <= length c)%nat
  /\ L <= SnapshotHeaderSize - 8
  /\ 8 + L <= Z.of_nat (length c)
  /\ Unmarshal (firstn (Z.to_nat L) (skipn 8 c)) = inr hdr
  /\ (Version hdr = 1 \/ Version hdr = 2)
  /\ sr' = mkSnapshotReader
             (Some (boundReader (Version hdr) (Z.of_nat (length c))))
             (mkFile name SnapshotHeaderSize)
  /\ reading sr' d (payloadRegion (Version hdr) c) newCRC32Hash.
Proof.
  intros name c L Hfit Hpos Hsize Hget.
  rewrite GetHeader_cases in Hget by assumption.
  fold name c L in Hget.
  destruct (Nat.ltb_spec (length c) 8) as [Hlen|Hlen]; [discriminate|].
  destruct (Z.gtb_spec L (SnapshotHeaderSize - 8)) as [HL|HL];
    [discriminate|].
  destruct (Z.ltb_spec (Z.of_nat (length c)) (8 + L)) as [Hrec|Hrec];
    [discriminate|].
  destruct (Unmarshal (firstn (Z.to_nat L) (skipn 8 c))) as [err|h];
    [discriminate|].
  unfold bind in Hget.
  destruct (getVersionReader_cases
              (payloadReader (Version h) (Z.of_nat (length c)))
              (Version h) d) as [Hv|Hp];
    [|rewrite Hp in Hget; discriminate].
  rewrite (getVersionReader_supported _ _ _ Hv) in Hget.
  rewrite payloadReader_exact in Hget by (assumption || lia).
  cbv beta iota delta [ret] in Hget.
  assert (Hh : h = hdr) by congruence. subst h.
  assert (Hsr : sr' = mkSnapshotReader
                        (Some (boundReader (Version hdr)
                                           (Z.of_nat (length c))))
                        (mkFile name SnapshotHeaderSize)).
  { unfold boundReader. revert Hget. unfold newV2Reader, newV1Reader.
    destruct (Version hdr =? v2SnapshotVersion); congruence. }
  assert (Hd : d' = d) by congruence.
  repeat split; try assumption; try lia.
  - rewrite Hsr. cbn [rfile fpos]. destruct Hfit. lia.
  - rewrite Hsr. eexists. split; [reflexivity|].
    cbn [rfile]. unfold boundReader, payloadRegion.
    destruct (Version hdr =? v2SnapshotVersion);
      cbn [IVReader_source IVReader_hash leftOf];
      unfold ahead; cbn [fname fpos]; fold name; fold c; auto.
Qed.

End ReadBack.


Lemma shortRead_length (a b : bytes) :
  length a = length b -> shortRead a = shortRead b.
Proof. destruct a, b; simpl; intros; congruence || discriminate. Qed.

Lemma content_nonempty (d : Disk) (p : string) :
  content d p <> [] -> d p = Some (content d p).
Proof. unfold content. destruct (d p); [reflexivity|contradiction]. Qed.

Section ReaderTheorems.

Context {E : Externals}.

Lemma result_bind_getVersionReader {S A} (rd : io.Reader) (ver : Z)
      (k : IVReader -> A) (s1 s2 : S) :
  result ((vr <- getVersionReader rd ver ;; ret (k vr)) s1)
  = result ((vr <- getVersionReader rd ver ;; ret (k vr)) s2).
Proof.
  unfold bind, getVersionReader.
  destruct (ver =? v1SnapshotVersion); [reflexivity|].
  destruct (ver =? v2SnapshotVersion); reflexivity.
Qed.

(** C4: on a freshly opened file that holds the 8-byte prefix, [GetHeader]
    panics when the little-endian prefix value [L] exceeds
    [SnapshotHeaderSize - 8]; for an accepted [L] with the record present it
    deserializes exactly the [L] bytes behind the prefix and leaves the
    handle at offset [SnapshotHeaderSize]; every header it returns is the
    one those [L] bytes hold; and its result is the same for any file of the
    same size that agrees on the prefix and the record, whatever the padding
    holds. *)
Theorem GetHeader_reads_record_then_seeks
        (sr : SnapshotReader) (d : Disk) :
  let name := fname (rfile sr) in
  let c := content d name in
  let L := LittleEndian.Uint64 (firstn 8 c) in
  regionFits ->
  fpos (rfile sr) = 0 ->
  (8 <= length c)%nat ->
  (L > SnapshotHeaderSize - 8 ->
   GetHeader sr d = Panic "invalid snapshot header size" d)
  /\ (L <= SnapshotHeaderSize - 8 ->
      8 + L <= Z.of_nat (length c) ->
      GetHeader sr d
      = match Unmarshal (firstn (Z.to_nat L) (skipn 8 c)) with
        | inl err => Panic err d
        | inr hdr =>
            (vr <- getVersionReader
                     (payloadReader (Version hdr) (Z.of_nat (length c)))
                     (Version hdr) ;;
             ret (hdr, None,
                  mkSnapshotReader (Some vr)
                                   (mkFile name SnapshotHeaderSize))) d
        end)
  /\ (forall hdr sr' d',
         GetHeader sr d = Ret (hdr, None, sr') d' ->
         L <= SnapshotHeaderSize - 8
         /\ Unmarshal (firstn (Z.to_nat L) (skipn 8 c)) = inr hdr
         /\ rfile sr' = mkFile name SnapshotHeaderSize)
  /\ (forall d2,
         length (content d2 name) = length c ->
         firstn (8 + Z.to_nat L) (content d2 name)
         = firstn (8 + Z.to_nat L) c ->
         result (GetHeader sr d2) = result (GetHeader sr d)).
Proof.
  intros name c L Hfit Hpos Hlen.
  pose proof (GetHeader_cases sr d Hfit Hpos) as Hc.
  cbv zeta in Hc. fold name c L in Hc.
  replace (length c <? 8)%nat with false in Hc
    by (symmetry; apply Nat.ltb_ge; exact Hlen).
  split; [|split; [|split]].
  - intros HL. rewrite Hc.
    destruct (Z.gtb_spec L (SnapshotHeaderSize - 8)); [reflexivity|lia].
  - intros HL Hrec. rewrite Hc.
    destruct (Z.gtb_spec L (SnapshotHeaderSize - 8)); [lia|].
    destruct (Z.ltb_spec (Z.of_nat (length c)) (8 + L)); [lia|].
    reflexivity.
  - intros hdr sr' d' Hget. rewrite Hc in Hget.
    destruct (Z.gtb_spec L (SnapshotHeaderSize - 8)) as [HL|HL];
      [discriminate|].
    destruct (Z.ltb_spec (Z.of_nat (length c)) (8 + L)); [discriminate|].
    destruct (Unmarshal (firstn (Z.to_nat L) (skipn 8 c))) as [err|h];
      [discriminate|].
    unfold bind in Hget.
    destruct (getVersionReader _ (Version h) d) as [vr s|];
      [|discriminate].
    cbv beta iota delta [ret] in Hget.
    split; [exact HL|]. split; [f_equal; congruence|].
    assert (Hsr : mkSnapshotReader (Some vr)
                                   (mkFile name SnapshotHeaderSize) = sr')
      by congruence.
    rewrite <- Hsr. reflexivity.
  - intros d2 Hlen2 Hpre.
    pose proof (GetHeader_cases sr d2 Hfit Hpos) as Hc2.
    cbv zeta in Hc2. fold name in Hc2.
    set (c2 := content d2 name) in *.
    assert (H8 : firstn 8 c2 = firstn 8 c).
    { transitivity (firstn 8 (firstn (8 + Z.to_nat L) c2)).
      - rewrite firstn_firstn. f_equal; lia.
      - rewrite Hpre, firstn_firstn. f_equal; lia. }
    assert (Hrec : firstn (Z.to_nat L) (skipn 8 c2)
                   = firstn (Z.to_nat L) (skipn 8 c)).
    { replace (Z.to_nat L) with (8 + Z.to_nat L - 8)%nat by lia.
      rewrite <- !skipn_firstn_comm, Hpre. reflexivity. }
    rewrite Hc2, H8. fold L. rewrite Hrec, Hlen2, Hc.
    replace (length c <? 8)%nat with false
      by (symmetry; apply Nat.ltb_ge; exact Hlen).
    destruct (L >? SnapshotHeaderSize - 8); [reflexivity|].
    destruct (Z.of_nat (length c) <? 8 + L).
    + rewrite (shortRead_length (skipn 8 c2) (skipn 8 c))
        by (rewrite !length_skipn; lia).
      reflexivity.
    + destruct (Unmarshal (firstn (Z.to_nat L) (skipn 8 c)));
        [reflexivity|].
      apply (result_bind_getVersionReader
               _ _ (fun vr => (s, None, mkSnapshotReader (Some vr) _))).
Qed.

(** C5: after a successful [GetHeader] on a header of version 2 the
    strategy reads through a reader limited to [fileSize -
    SnapshotHeaderSize - 16] bytes: any run of [Read] calls returns a prefix
    of the bytes between the header region and the last 16 bytes of the
    file, so no more than that many bytes and none of the trailing region,
    and reading to the end returns exactly those bytes.  For version 1 the
    reader is the file itself and reading to the end returns everything
    from the header region to the end of the file. *)
Theorem version2_payload_is_limited
        (sr sr' : SnapshotReader) (d d' : Disk) (hdr : SnapshotHeader) :
  let c := content d (fname (rfile sr)) in
  let size := Z.of_nat (length c) in
  let payloadSz := size - SnapshotHeaderSize - 16 in
  let rest := skipn (Z.to_nat SnapshotHeaderSize) c in
  regionFits ->
  fpos (rfile sr) = 0 ->
  size < 2 ^ 63 ->
  GetHeader sr d = Ret (hdr, None, sr') d' ->
  (Version hdr = 2 ->
   r sr' = Some (v2reader (io.LimitedReader payloadSz) newCRC32Hash)
   /\ (forall lens, exists out more sr'',
          ReadMany sr' lens d' = Ret (out, sr'') d'
          /\ firstn (Z.to_nat payloadSz) rest = out ++ more
          /\ Z.of_nat (length out) <= Z.max 0 payloadSz)
   /\ (forall bufsz fuel,
          (0 < bufsz)%nat ->
          (length (firstn (Z.to_nat payloadSz) rest) < fuel)%nat ->
          exists sr'',
            ReadToEnd fuel sr' bufsz [] d'
            = Ret (firstn (Z.to_nat payloadSz) rest, Some EOF, sr'') d'))
  /\ (Version hdr = 1 ->
      r sr' = Some (v1reader io.FileReader newCRC32Hash)
      /\ (forall lens, exists out more sr'',
             ReadMany sr' lens d' = Ret (out, sr'') d'
             /\ rest = out ++ more)
      /\ (forall bufsz fuel,
             (0 < bufsz)%nat -> (length rest < fuel)%nat ->
             exists sr'',
               ReadToEnd fuel sr' bufsz [] d'
               = Ret (rest, Some EOF, sr'') d')).
Proof.
  intros c size payloadSz rest Hfit Hpos Hsize Hget.
  destruct (GetHeader_returned sr sr' d d' hdr Hfit Hpos Hsize Hget)
    as (-> & _ & _ & _ & _ & _ & Hsr & Hrd).
  fold c in Hsr, Hrd. split; intros Hv.
  - rewrite Hv in Hsr, Hrd. unfold boundReader, payloadRegion in *.
    change (2 =? v2SnapshotVersion) with true in *. cbv iota zeta in *.
    fold size payloadSz rest in Hsr, Hrd.
    split; [rewrite Hsr; reflexivity|]. split.
    + intros lens.
      destruct (ReadMany_prefix lens sr' d _ _ Hrd)
        as (out & more & sr'' & Heq & Hsplit & _).
      exists out, more, sr''. split; [exact Heq|]. split; [exact Hsplit|].
      apply (f_equal (@length byte)) in Hsplit.
      rewrite length_firstn, length_app in Hsplit. lia.
    + intros bufsz fuel Hb Hfuel.
      destruct (ReadToEnd_all fuel sr' bufsz [] d _ _ Hrd Hb Hfuel)
        as (sr'' & Heq & _).
      exists sr''. exact Heq.
  - rewrite Hv in Hsr, Hrd. unfold boundReader, payloadRegion in *.
    change (1 =? v2SnapshotVersion) with false in *. cbv iota zeta in *.
    fold rest in Hrd.
    split; [rewrite Hsr; reflexivity|]. split.
    + intros lens.
      destruct (ReadMany_prefix lens sr' d _ _ Hrd)
        as (out & more & sr'' & Heq & Hsplit & _).
      exists out, more, sr''. auto.
    + intros bufsz fuel Hb Hfuel.
      destruct (ReadToEnd_all fuel sr' bufsz [] d _ _ Hrd Hb Hfuel)
        as (sr'' & Heq & _).
      exists sr''. exact Heq.
Qed.

(** C10: for a file with a well-formed version-2 header record and fewer
    than [SnapshotHeaderSize + 16] bytes, [GetHeader] returns the header
    with no error, the limit of the payload reader is negative, every
    [Read] returns no byte and [io.EOF] and leaves the reader as it was, and
    [ValidatePayload] panics exactly when the stored payload checksum is
    not the checksum of the empty payload. *)
Theorem truncated_version2_reads_empty
        (sr : SnapshotReader) (d : Disk) (hdr : SnapshotHeader) :
  let name := fname (rfile sr) in
  let c := content d name in
  let L := LittleEndian.Uint64 (firstn 8 c) in
  let size := Z.of_nat (length c) in
  regionFits ->
  fpos (rfile sr) = 0 ->
  (8 <= length c)%nat ->
  L <= SnapshotHeaderSize - 8 ->
  8 + L <= size ->
  Unmarshal (firstn (Z.to_nat L) (skipn 8 c)) = inr hdr ->
  Version hdr = 2 ->
  size < SnapshotHeaderSize + 16 ->
  exists sr',
    GetHeader sr d = Ret (hdr, None, sr') d
    /\ r sr' = Some (v2reader
                       (io.LimitedReader (size - SnapshotHeaderSize - 16))
                       newCRC32Hash)
    /\ (forall n, SnapshotReader_Read sr' n d = Ret ([], Some EOF, sr') d)
    /\ (forall (S : Type) (s : S),
           ValidatePayload sr' hdr s
           = if bytesEqual (Some (crc32.Sum newCRC32Hash))
                           (PayloadChecksum hdr)
             then Ret tt s
             else Panic "corrupted snapshot payload" s).
Proof.
  intros name c L size Hfit Hpos Hlen HL Hrec Hun Hv Hshort.
  pose proof Hfit as [HH1 HH2].
  pose proof (GetHeader_cases sr d Hfit Hpos) as Hc.
  cbv zeta in Hc. fold name c L in Hc.
  replace (length c <? 8)%nat with false in Hc
    by (symmetry; apply Nat.ltb_ge; exact Hlen).
  destruct (Z.gtb_spec L (SnapshotHeaderSize - 8)); [lia|].
  destruct (Z.ltb_spec (Z.of_nat (length c)) (8 + L)); [unfold size in *; lia|].
  rewrite Hun, Hv in Hc.
  rewrite payloadReader_exact in Hc by (assumption || unfold size in *; lia).
  change (2 =? v2SnapshotVersion) with true in Hc. cbv iota in Hc.
  fold size in Hc.
  eexists. split; [exact Hc|]. cbn [r]. split; [reflexivity|]. split.
  - intros n. unfold SnapshotReader_Read. cbn [r rfile].
    unfold bind, IVReader_Read, bind, io.Read.
    cbn [IVReader_source newV2Reader IVReader_hash].
    destruct (Z.leb_spec (size - SnapshotHeaderSize - 16) 0); [|lia].
    cbn [ret IVReader_with]. rewrite crc32_Write_nil. reflexivity.
  - intros S s. unfold ValidatePayload. cbn [r newV2Reader].
    unfold IVReader_Sum. cbn [IVReader_hash].
    destruct (bytesEqual _ _); reflexivity.
Qed.

End ReaderTheorems.

Lemma sample_regionFits : regionFits (E := Sample.externals).
Proof. unfold regionFits. cbn. lia. Defined.

Lemma sample_GetHeader :
  GetHeader (E := Sample.externals) Sample.reader0 Sample.written
  = Ret (Sample.header, None, Sample.reader1) Sample.written.
Proof. vm_compute. reflexivity. Defined.

Lemma GetHeader_reads_record_then_seeks_witness :
  LittleEndian.Uint64 (firstn 8 (content Sample.written Sample.path)) = 66
  /\ Unmarshal (Externals := Sample.externals)
       (firstn 66 (skipn 8 (content Sample.written Sample.path)))
     = inr Sample.header
  /\ rfile Sample.reader1 = mkFile Sample.path 1024.
Proof.
  destruct (GetHeader_reads_record_then_seeks
              (E := Sample.externals) Sample.reader0 Sample.written
              sample_regionFits eq_refl)
    as (_ & _ & Hret & _).
  - apply Nat.leb_le. vm_compute. reflexivity.
  - destruct (Hret _ _ _ sample_GetHeader) as (_ & Hun & Hpos).
    split; [vm_compute; reflexivity|]. split; [exact Hun | exact Hpos].
Defined.

Lemma version2_payload_is_limited_witness :
  exists out more sr'',
    ReadMany Sample.reader1 [3; 4; 100]%nat
             Sample.written
    = Ret (out, sr'') Sample.written
    /\ firstn 10 (skipn 1024 (content Sample.written Sample.path))
       = out ++ more
    /\ Z.of_nat (length out) <= 10.
Proof.
  destruct (version2_payload_is_limited
              (E := Sample.externals) Sample.reader0 Sample.reader1
              Sample.written Sample.written Sample.header
              sample_regionFits eq_refl)
    as [Hv2 _].
  - vm_compute. reflexivity.
  - exact sample_GetHeader.
  - destruct (Hv2 eq_refl) as (_ & Hmany & _).
    exact (Hmany [3; 4; 100]%nat).
Defined.

Lemma truncated_version2_reads_empty_witness :
  exists sr',
    GetHeader (E := Sample.externals) Sample.reader0 Sample.truncated
    = Ret (Sample.header, None, sr') Sample.truncated
    /\ r sr' = Some (v2reader (io.LimitedReader (-840)) crc32.NewIEEE)
    /\ SnapshotReader_Read sr' 4 Sample.truncated
       = Ret ([], Some EOF, sr') Sample.truncated
    /\ ValidatePayload sr' Sample.header tt
       = Panic "corrupted snapshot payload" tt.
Proof.
  destruct (truncated_version2_reads_empty
              (E := Sample.externals) Sample.reader0 Sample.truncated
              Sample.header sample_regionFits eq_refl)
    as (sr' & Hget & Hr & Hread & Hvp).
  - apply Nat.leb_le. vm_compute. reflexivity.
  - vm_compute. discriminate.
  - vm_compute. discriminate.
  - vm_compute. reflexivity.
  - vm_compute. reflexivity.
  - vm_compute. reflexivity.
  - exists sr'. split; [exact Hget|].
    split; [vm_compute in Hr |- *; exact Hr|].
    split; [apply Hread|].
    specialize (Hvp unit tt). vm_compute in Hvp |- *. exact Hvp.
Defined.

(** ** Round trip *)


Section RoundTrip.

Context {E : Externals}.

Lemma trailerOf_length (version : Z) (payload : bytes) :
  (forall h, length (v2Trailer h) = 16%nat) ->
  length (trailerOf version payload)
  = if version =? v1SnapshotVersion then 0%nat else 16%nat.
Proof.
  intros Ht. unfold trailerOf.
  destruct (version =? v1SnapshotVersion); [reflexivity|apply Ht].
Qed.

(** C1: for a payload written in chunks through a writer of version 1 or
    2 ([Write] calls, [Flush], [SaveHeader], [Close]), reopening the file,
    [GetHeader] and reading to the end of the stream return exactly the
    payload, and [ValidatePayload] and [ValidateHeader] return without a
    panic on the returned header.  The header codec is assumed to
    serialize the header, to fit the header region and to read its own
    record back; the version-2 trailer has 16 bytes. *)
Theorem write_then_read_round_trip
        (path : string) (version : Z) (chunks : list bytes)
        (smsz sz now : Z) (bufsz fuel : nat) (d : Disk)
        (data0 data : bytes) :
  let payload := concat chunks in
  let sh0 := unsignedHeader version payload smsz sz now in
  let sh := set_HeaderChecksum sh0 (Some (checksumOf data0)) in
  version = 1 \/ version = 2 ->
  regionFits ->
  (forall h, length (v2Trailer h) = 16%nat) ->
  Z.of_nat (length payload) + SnapshotHeaderSize + 16 < 2 ^ 63 ->
  Marshal sh0 = inr data0 ->
  Marshal sh = inr data ->
  Z.of_nat (length data) <= SnapshotHeaderSize - 8 ->
  Unmarshal data = inr sh ->
  (0 < bufsz)%nat ->
  (length payload < fuel)%nat ->
  exists d',
    writeSnapshot path version chunks smsz sz now d = Ret None d'
    /\ readSnapshot path bufsz fuel d' = Ret (sh, payload, Some EOF) d'.
Proof.
  intros payload sh0 sh Hv Hfit Htrail Hsize Hm0 Hm Hlen Hun Hb Hfuel.
  pose proof Hfit as [HH1 HH2].
  destruct (writeSnapshot_layout path version chunks smsz sz now d
              data0 data Hv Hfit Hm0 Hm Hlen) as (d' & Hw & Hc).
  fold payload in Hc.
  exists d'. split; [exact Hw|].
  set (lenbuf := LittleEndian.PutUint64 (Z.of_nat (length data))) in *.
  set (pad := make (SnapshotHeaderSize - 8 - Z.of_nat (length data))) in *.
  set (t := trailerOf version payload) in *.
  assert (Hlb : length lenbuf = 8%nat) by reflexivity.
  assert (Hpad : length pad
                 = Z.to_nat (SnapshotHeaderSize - 8
                             - Z.of_nat (length data)))
    by apply make_length.
  assert (Ht : length t = if version =? v1SnapshotVersion
                          then 0%nat else 16%nat)
    by (apply trailerOf_length; exact Htrail).
  assert (Hclen : Z.of_nat (length (content d' path))
                  = SnapshotHeaderSize + Z.of_nat (length payload)
                    + Z.of_nat (length t)).
  { rewrite Hc, !length_app, Hlb, Hpad. lia. }
  assert (Htle : (length t <= 16)%nat).
  { rewrite Ht. destruct (version =? v1SnapshotVersion); lia. }
  set (sr0 := mkSnapshotReader None (mkFile path 0)).
  assert (Hopen : NewSnapshotReader path d' = Ret (Some sr0, None) d').
  { unfold NewSnapshotReader, bind, os.OpenRead.
    rewrite (content_nonempty d' path)
      by (rewrite Hc; unfold lenbuf; discriminate).
    reflexivity. }
  assert (H8 : firstn 8 (content d' path) = lenbuf).
  { rewrite Hc, <- Hlb, firstn_app, firstn_all, Nat.sub_diag, firstn_O.
    apply app_nil_r. }
  assert (HL : LittleEndian.Uint64 (firstn 8 (content d' path))
               = Z.of_nat (length data)).
  { rewrite H8. apply Uint64_PutUint64. lia. }
  assert (Hrec : firstn (length data) (skipn 8 (content d' path)) = data).
  { rewrite Hc, <- Hlb, skipn_app, skipn_all, Nat.sub_diag.
    cbn [skipn app].
    rewrite firstn_app, firstn_all, Nat.sub_diag, firstn_O.
    apply app_nil_r. }
  assert (Hrest : skipn (Z.to_nat SnapshotHeaderSize) (content d' path)
                  = payload ++ t).
  { rewrite Hc, !app_assoc, <- app_assoc.
    rewrite skipn_app, skipn_all2
      by (rewrite !length_app, Hlb, Hpad; lia).
    rewrite !length_app, Hlb, Hpad.
    replace (Z.to_nat SnapshotHeaderSize
             - (8 + length data
                + Z.to_nat (SnapshotHeaderSize - 8
                            - Z.of_nat (length data))))%nat
      with 0%nat by lia.
    reflexivity. }
  assert (Hget : exists sr1,
             GetHeader sr0 d' = Ret (sh, None, sr1) d').
  { rewrite GetHeader_cases by (assumption || reflexivity).
    cbn [sr0 rfile fname]. rewrite HL.
    replace (length (content d' path) <? 8)%nat with false
      by (symmetry; apply Nat.ltb_ge; lia).
    destruct (Z.gtb_spec (Z.of_nat (length data))
                         (SnapshotHeaderSize - 8)); [lia|].
    destruct (Z.ltb_spec (Z.of_nat (length (content d' path)))
                         (8 + Z.of_nat (length data))); [lia|].
    rewrite Nat2Z.id, Hrec, Hun. unfold bind.
    rewrite getVersionReader_supported
      by (unfold sh; cbn [Version set_HeaderChecksum]; exact Hv).
    eexists. reflexivity. }
  destruct Hget as (sr1 & Hget).
  destruct (GetHeader_returned sr0 sr1 d' d' sh Hfit eq_refl
              ltac:(cbn [sr0 rfile fname]; lia) Hget)
    as (_ & _ & _ & _ & _ & _ & _ & Hrd).
  cbn [sr0 rfile fname] in Hrd.
  assert (Hregion : payloadRegion (Version sh) (content d' path)
                    = payload).
  { unfold payloadRegion. rewrite Hrest.
    change (Version sh) with version.
    unfold v1SnapshotVersion, v2SnapshotVersion in *.
    destruct Hv as [-> | ->].
    - change (1 =? 2) with false. cbv iota zeta.
      change (1 =? 1) with true in Ht. destruct t; [|discriminate].
      apply app_nil_r.
    - change (2 =? 2) with true. cbv iota zeta.
      change (2 =? 1) with false in Ht. rewrite Hclen, Ht.
      replace (Z.to_nat (SnapshotHeaderSize + Z.of_nat (length payload)
                         + Z.of_nat 16 - SnapshotHeaderSize - 16))
        with (length payload) by lia.
      rewrite firstn_app, firstn_all, Nat.sub_diag, firstn_O.
      apply app_nil_r. }
  rewrite Hregion in Hrd.
  destruct (ReadToEnd_all fuel sr1 bufsz [] d' payload newCRC32Hash
              Hrd Hb Hfuel) as (sr2 & Hread & Hrd2).
  cbn [app] in Hread.
  destruct Hrd2 as (_ & vr & Hr2 & _ & Hhash).
  unfold readSnapshot. unfold bind at 1. rewrite Hopen.
  unfold bind at 1. rewrite Hget. cbn [is_nil negb].
  unfold bind at 1. rewrite Hread.
  unfold bind at 1.
  assert (Hvp : ValidatePayload sr2 sh d' = Ret tt d').
  { unfold ValidatePayload. rewrite Hr2. unfold IVReader_Sum.
    rewrite Hhash. unfold bytesEqual.
    cbn [PayloadChecksum sh set_HeaderChecksum sh0 unsignedHeader
         slice_bytes].
    unfold checksumOf. rewrite bytes_eqb_refl. reflexivity. }
  rewrite Hvp. unfold bind at 1.
  assert (Hvh : ValidateHeader sh d' = Ret tt d').
  { rewrite ValidateHeader_cases by reflexivity.
    change (set_HeaderChecksum sh None) with sh0. rewrite Hm0.
    cbn [HeaderChecksum sh set_HeaderChecksum slice_bytes].
    rewrite bytes_eqb_refl. reflexivity. }
  rewrite Hvh. reflexivity.
Qed.

End RoundTrip.

Lemma write_then_read_round_trip_witness :
  exists d',
    writeSnapshot (E := Sample.externals) Sample.path 2 Sample.chunks
                  4 6 1700000000 emptyDisk = Ret None d'
    /\ readSnapshot (E := Sample.externals) Sample.path 4 11 d'
       = Ret (Sample.header, Sample.payload, Some EOF) d'.
Proof.
  apply (write_then_read_round_trip
           (E := Sample.externals) Sample.path 2 Sample.chunks
           4 6 1700000000 4 11 emptyDisk Sample.record0 Sample.record).
  - right. reflexivity.
  - exact sample_regionFits.
  - intros h. reflexivity.
  - vm_compute. reflexivity.
  - reflexivity.
  - reflexivity.
  - vm_compute. discriminate.
  - vm_compute. reflexivity.
  - apply Nat.ltb_lt. reflexivity.
  - apply Nat.ltb_lt. reflexivity.
Defined.

(** * Further properties of the writer *)

Section WriterExtras.

Context {E : Externals}.

Lemma store_other (d : Disk) (p q : string) (c : bytes) :
  q <> p -> store d p c q = d q.
Proof.
  intros Hq. unfold store.
  destruct (String.eqb_spec q p); [contradiction|reflexivity].
Qed.

Lemma store_same (d : Disk) (p : string) (c : bytes) :
  store d p c p = Some c.
Proof. unfold store. rewrite String.eqb_refl. reflexivity. Qed.

(** What [NewSnapshotWriter] has done to the disk when the dispatch on the
    version is reached. *)
Lemma NewSnapshotWriter_cases (path : string) (version : Z) (d : Disk) :
  0 <= SnapshotHeaderSize ->
  NewSnapshotWriter path version d
  = (w <- getVersionWriter version ;;
     ret (Some (mkSnapshotWriter w (mkFile path SnapshotHeaderSize) path),
          None))
      (store (store d path []) path (make SnapshotHeaderSize)).
Proof.
  intros HH. unfold NewSnapshotWriter. unfold bind at 1.
  unfold os.Create. cbn [is_nil negb]. unfold bind at 1.
  rewrite os_Write_atEnd
    by (cbn [fname fpos]; rewrite content_store_same; reflexivity).
  cbn [is_nil negb fname]. rewrite content_store_same. cbn [app].
  rewrite make_length, Z2Nat.id by exact HH. reflexivity.
Qed.

(** X1: with a supported version, [NewSnapshotWriter] leaves at [path] a
    file of exactly [SnapshotHeaderSize] zero bytes, whatever was there
    before, returns a writer whose handle stands at the end of that region
    and whose strategy has the version asked for, and touches no other
    file. *)
Theorem NewSnapshotWriter_reserves_region
        (path : string) (version : Z) (d : Disk) :
  version = 1 \/ version = 2 ->
  0 <= SnapshotHeaderSize ->
  exists sw d',
    NewSnapshotWriter path version d = Ret (Some sw, None) d'
    /\ d' path = Some (make SnapshotHeaderSize)
    /\ file sw = mkFile path SnapshotHeaderSize
    /\ fp sw = path
    /\ IVWriter_GetVersion (vw sw) = version
    /\ (forall q, q <> path -> d' q = d q).
Proof.
  intros Hv HH. rewrite NewSnapshotWriter_cases by exact HH.
  unfold bind, getVersionWriter.
  destruct Hv as [-> | ->]; cbn [Z.eqb Pos.eqb v1SnapshotVersion
                                  v2SnapshotVersion ret];
    do 2 eexists; (split; [reflexivity|]);
    (split; [apply store_same|]); repeat split;
    intros q Hq; rewrite !store_other by exact Hq; reflexivity.
Qed.

(** X2: with a version other than 1 and 2, [NewSnapshotWriter] panics only
    after it has created or truncated the file and written the placeholder:
    the disk it leaves holds [SnapshotHeaderSize] zero bytes at [path]. *)
Theorem NewSnapshotWriter_unsupported_version
        (path : string) (version : Z) (d : Disk) :
  version <> 1 -> version <> 2 ->
  0 <= SnapshotHeaderSize ->
  exists d',
    NewSnapshotWriter path version d = Panic "unsupported v" d'
    /\ d' path = Some (make SnapshotHeaderSize)
    /\ (forall q, q <> path -> d' q = d q).
Proof.
  intros H1 H2 HH. rewrite NewSnapshotWriter_cases by exact HH.
  destruct (version_tests version H1 H2) as [T1 T2].
  unfold bind, getVersionWriter. rewrite T1, T2.
  eexists. split; [reflexivity|]. split; [apply store_same|].
  intros q Hq. rewrite !store_other by exact Hq. reflexivity.
Qed.

(** X3: whenever [SaveHeader] returns, the bytes of the file behind the
    record it wrote are those that were there before, in particular all
    those from the end of the header region on; the record fits the
    region; no other file is touched; the strategy is as it was and the
    handle is left just behind the record, not at the end of the file. *)
Theorem SaveHeader_keeps_payload
        (sw sw' : SnapshotWriter) (smsz sz now : Z) (d d' : Disk)
        (err : error) :
  SaveHeader sw smsz sz now d = Ret (err, sw') d' ->
  let name := fname (file sw) in
  exists sh data,
    finalHeader sw smsz sz now d = Ret (sh, data) d
    /\ Z.of_nat (length data) <= SnapshotHeaderSize - 8
    /\ skipn (8 + length data) (content d' name)
       = skipn (8 + length data) (content d name)
    /\ skipn (Z.to_nat SnapshotHeaderSize) (content d' name)
       = skipn (Z.to_nat SnapshotHeaderSize) (content d name)
    /\ (forall q, q <> name -> d' q = d q)
    /\ vw sw' = vw sw
    /\ file sw' = mkFile name (8 + Z.of_nat (length data)).
Proof.
  intros Hs name. rewrite SaveHeader_cases in Hs.
  destruct (finalHeader sw smsz sz now d) as [[sh data] d1|msg d1] eqn:Hf;
    [|discriminate].
  pose proof (finalHeader_inv _ _ _ _ _ _ _ _ Hf)
    as (data0 & _ & _ & _ & Hlen & ->).
  cbv zeta in Hs. fold name in Hs.
  assert (Hsw : sw' = mkSnapshotWriter
                        (vw sw) (mkFile name (8 + Z.of_nat (length data)))
                        (fp sw)) by congruence.
  apply (f_equal final) in Hs. cbn [final] in Hs. subst d'.
  set (lenbuf := LittleEndian.PutUint64 (Z.of_nat (length data))).
  assert (Hkeep : skipn (8 + length data)
                        (lenbuf ++ data
                           ++ skipn (8 + length data) (content d name))
                  = skipn (8 + length data) (content d name)).
  { assert (Hlb : length lenbuf = 8%nat) by reflexivity.
    rewrite app_assoc, skipn_app, skipn_all2
      by (rewrite length_app, Hlb; lia).
    rewrite length_app, Hlb, Nat.sub_diag. reflexivity. }
  exists sh, data. split; [reflexivity|]. split; [exact Hlen|].
  rewrite content_store_same. split; [exact Hkeep|]. split.
  - replace (Z.to_nat SnapshotHeaderSize)
      with ((Z.to_nat SnapshotHeaderSize - (8 + length data))
            + (8 + length data))%nat by lia.
    rewrite <- (skipn_skipn _ (8 + length data) (lenbuf ++ _)).
    rewrite <- (skipn_skipn _ (8 + length data) (content d name)).
    rewrite Hkeep. reflexivity.
  - split; [|rewrite Hsw; auto].
    intros q Hq. rewrite !store_other by exact Hq. reflexivity.
Qed.

(** X4: a header region that [SaveHeader] wrote is never refused by
    [GetHeader]: on the file [SaveHeader] leaves, whatever it held before,
    a reader opened on it passes the size check, finds the whole record and
    hands exactly the record [SaveHeader] serialized to [Unmarshal]. *)
Theorem GetHeader_after_SaveHeader
        (sw sw' : SnapshotWriter) (smsz sz now : Z) (d d' : Disk)
        (err : error) (sr : SnapshotReader) :
  SaveHeader sw smsz sz now d = Ret (err, sw') d' ->
  regionFits ->
  fname (rfile sr) = fname (file sw) ->
  fpos (rfile sr) = 0 ->
  exists sh data,
    finalHeader sw smsz sz now d = Ret (sh, data) d
    /\ GetHeader sr d'
       = match Unmarshal data with
         | inl e => Panic e d'
         | inr hdr =>
             (vr <- getVersionReader
                      (payloadReader
                         (Version hdr)
                         (Z.of_nat (length (content d' (fname (file sw))))))
                      (Version hdr) ;;
              ret (hdr, None,
                   mkSnapshotReader
                     (Some vr)
                     (mkFile (fname (file sw)) SnapshotHeaderSize))) d'
         end.
Proof.
  intros Hs Hfit Hname Hpos. pose proof Hfit as [HH1 HH2].
  rewrite SaveHeader_cases in Hs.
  destruct (finalHeader sw smsz sz now d) as [[sh data] d1|msg d1] eqn:Hf;
    [|discriminate].
  pose proof (finalHeader_inv _ _ _ _ _ _ _ _ Hf)
    as (data0 & _ & _ & _ & Hlen & ->).
  cbv zeta in Hs. apply (f_equal final) in Hs. cbn [final] in Hs.
  exists sh, data. split; [reflexivity|].
  set (name := fname (file sw)) in *.
  set (lenbuf := LittleEndian.PutUint64 (Z.of_nat (length data))) in *.
  assert (Hc : content d' name
               = lenbuf ++ data
                   ++ skipn (8 + length data) (content d name)).
  { rewrite <- Hs. apply content_store_same. }
  assert (Hlb : length lenbuf = 8%nat) by reflexivity.
  assert (H8 : firstn 8 (content d' name) = lenbuf).
  { rewrite Hc, <- Hlb, firstn_app, firstn_all, Nat.sub_diag, firstn_O.
    apply app_nil_r. }
  assert (HL : LittleEndian.Uint64 (firstn 8 (content d' name))
               = Z.of_nat (length data)).
  { rewrite H8. apply Uint64_PutUint64. lia. }
  assert (Hrec : firstn (length data) (skipn 8 (content d' name)) = data).
  { rewrite Hc, <- Hlb, skipn_app, skipn_all, Nat.sub_diag.
    cbn [skipn app].
    rewrite firstn_app, firstn_all, Nat.sub_diag, firstn_O.
    apply app_nil_r. }
  assert (Hsize : (8 + length data <= length (content d' name))%nat).
  { rewrite Hc, !length_app, Hlb. lia. }
  rewrite GetHeader_cases by assumption. rewrite Hname. fold name.
  rewrite HL.
  replace (length (content d' name) <? 8)%nat with false
    by (symmetry; apply Nat.ltb_ge; lia).
  destruct (Z.gtb_spec (Z.of_nat (length data)) (SnapshotHeaderSize - 8));
    [lia|].
  destruct (Z.ltb_spec (Z.of_nat (length (content d' name)))
                       (8 + Z.of_nat (length data))); [lia|].
  rewrite Nat2Z.id, Hrec. reflexivity.
Qed.

End WriterExtras.

(** * Further properties of the reader *)

Section ReaderExtras.

Context {E : Externals}.

(** X5: a reader that [NewSnapshotReader] has just opened is bound to no
    strategy: until [GetHeader] has returned, [Read] panics and so does
    [ValidatePayload], and opening changes nothing on the disk. *)
Theorem Read_before_GetHeader_panics
        (path : string) (d : Disk) (c : bytes) (n : nat)
        (hdr : SnapshotHeader) :
  d path = Some c ->
  exists sr,
    NewSnapshotReader path d = Ret (Some sr, None) d
    /\ rfile sr = mkFile path 0
    /\ SnapshotReader_Read sr n d = Panic "Read called before GetHeader" d
    /\ ValidatePayload sr hdr d
       = Panic "invalid memory address or nil pointer dereference" d.
Proof.
  intros Hd. unfold NewSnapshotReader, bind, os.OpenRead. rewrite Hd.
  eexists. split; [reflexivity|]. repeat split.
Qed.

(** X6: on a file too short for the length prefix, or too short for the
    record its prefix announces, [GetHeader] returns the empty header with
    an error and no panic, [io.EOF] when not one of the wanted bytes was
    there and [io.ErrUnexpectedEOF] otherwise, and binds no strategy. *)
Theorem GetHeader_short_file (sr : SnapshotReader) (d : Disk) :
  let name := fname (rfile sr) in
  let c := content d name in
  let L := LittleEndian.Uint64 (firstn 8 c) in
  let stopped :=
    mkSnapshotReader (r sr) (mkFile name (Z.of_nat (length c))) in
  regionFits ->
  fpos (rfile sr) = 0 ->
  (c = [] -> GetHeader sr d = Ret (emptyHeader, Some EOF, stopped) d)
  /\ ((0 < length c < 8)%nat ->
      GetHeader sr d = Ret (emptyHeader, Some ErrUnexpectedEOF, stopped) d)
  /\ (length c = 8%nat -> 0 < L <= SnapshotHeaderSize - 8 ->
      GetHeader sr d = Ret (emptyHeader, Some EOF, stopped) d)
  /\ ((8 < length c)%nat -> L <= SnapshotHeaderSize - 8 ->
      Z.of_nat (length c) < 8 + L ->
      GetHeader sr d = Ret (emptyHeader, Some ErrUnexpectedEOF, stopped) d).
Proof.
  intros name c L stopped Hfit Hpos.
  pose proof (GetHeader_cases sr d Hfit Hpos) as Hc.
  cbv zeta in Hc. fold name c L stopped in Hc.
  split; [|split; [|split]].
  - intros Hnil. rewrite Hc, Hnil. reflexivity.
  - intros Hlen. rewrite Hc.
    replace (length c <? 8)%nat with true
      by (symmetry; apply Nat.ltb_lt; lia).
    destruct c; [simpl in Hlen; lia|reflexivity].
  - intros Hlen HL. rewrite Hc, Hlen. cbn [Nat.ltb Nat.leb].
    destruct (Z.gtb_spec L (SnapshotHeaderSize - 8)); [lia|].
    destruct (Z.ltb_spec (Z.of_nat 8) (8 + L)); [|lia].
    rewrite skipn_all2 by lia. reflexivity.
  - intros Hlen HL Hrec. rewrite Hc.
    replace (length c <? 8)%nat with false
      by (symmetry; apply Nat.ltb_ge; lia).
    destruct (Z.gtb_spec L (SnapshotHeaderSize - 8)); [lia|].
    destruct (Z.ltb_spec (Z.of_nat (length c)) (8 + L)); [|lia].
    destruct (skipn 8 c) eqn:Hs; [|reflexivity].
    apply (f_equal (@length byte)) in Hs. rewrite length_skipn in Hs.
    simpl in Hs. lia.
Qed.

(** X7: when the record behind an accepted prefix does not deserialize,
    [GetHeader] panics with the error of [Unmarshal]; when it deserializes
    to a header of a version other than 1 and 2, [GetHeader] panics too:
    such a file is never read under another version's framing. *)
Theorem GetHeader_rejects_foreign_record (sr : SnapshotReader) (d : Disk) :
  let c := content d (fname (rfile sr)) in
  let L := LittleEndian.Uint64 (firstn 8 c) in
  let record := firstn (Z.to_nat L) (skipn 8 c) in
  regionFits ->
  fpos (rfile sr) = 0 ->
  (8 <= length c)%nat ->
  L <= SnapshotHeaderSize - 8 ->
  8 + L <= Z.of_nat (length c) ->
  (forall err, Unmarshal record = inl err -> GetHeader sr d = Panic err d)
  /\ (forall hdr,
         Unmarshal record = inr hdr ->
         Version hdr <> 1 -> Version hdr <> 2 ->
         GetHeader sr d = Panic "unsupported v" d).
Proof.
  intros c L record Hfit Hpos Hlen HL Hrec.
  pose proof (GetHeader_cases sr d Hfit Hpos) as Hc.
  cbv zeta in Hc. fold c L record in Hc.
  replace (length c <? 8)%nat with false in Hc
    by (symmetry; apply Nat.ltb_ge; lia).
  destruct (Z.gtb_spec L (SnapshotHeaderSize - 8)); [lia|].
  destruct (Z.ltb_spec (Z.of_nat (length c)) (8 + L)); [lia|].
  split.
  - intros err Hun. rewrite Hc, Hun. reflexivity.
  - intros hdr Hun H1 H2. rewrite Hc, Hun.
    destruct (version_tests (Version hdr) H1 H2) as [T1 T2].
    unfold bind, getVersionReader. rewrite T1, T2. reflexivity.
Qed.

Lemma firstn_make_app (k : nat) (n : Z) (rest : bytes) :
  (k <= Z.to_nat n)%nat -> firstn k (make n ++ rest) = repeat x00 k.
Proof.
  intros Hk. unfold make.
  replace (Z.to_nat n) with (k + (Z.to_nat n - k))%nat by lia.
  rewrite repeat_app, <- app_assoc.
  rewrite firstn_app, repeat_length, Nat.sub_diag, firstn_O, app_nil_r.
  rewrite firstn_all2 by (rewrite repeat_length; lia). reflexivity.
Qed.

(** X8: on a file whose header was never saved, the zero-filled
    placeholder followed by any bytes, [GetHeader] reads a record of length
    0: what it returns or panics with is decided by what [Unmarshal] makes
    of the empty record, and no byte of the placeholder or of the payload is
    taken for a header. *)
Theorem GetHeader_unsaved_header
        (sr : SnapshotReader) (d : Disk) (rest : bytes) :
  let name := fname (rfile sr) in
  regionFits ->
  fpos (rfile sr) = 0 ->
  content d name = make SnapshotHeaderSize ++ rest ->
  GetHeader sr d
  = match Unmarshal [] with
    | inl err => Panic err d
    | inr hdr =>
        (vr <- getVersionReader
                 (payloadReader (Version hdr)
                                (SnapshotHeaderSize
                                 + Z.of_nat (length rest)))
                 (Version hdr) ;;
         ret (hdr, None,
              mkSnapshotReader (Some vr) (mkFile name SnapshotHeaderSize))) d
    end.
Proof.
  intros name Hfit Hpos Hc. pose proof Hfit as [HH1 HH2].
  rewrite GetHeader_cases by assumption. fold name. rewrite Hc.
  rewrite firstn_make_app by lia.
  change (LittleEndian.Uint64 (repeat x00 8)) with 0.
  rewrite length_app, make_length.
  replace (Z.to_nat SnapshotHeaderSize + length rest <? 8)%nat with false
    by (symmetry; apply Nat.ltb_ge; lia).
  destruct (Z.gtb_spec 0 (SnapshotHeaderSize - 8)); [lia|].
  destruct (Z.ltb_spec (Z.of_nat (Z.to_nat SnapshotHeaderSize + length rest))
                       (8 + 0)); [lia|].
  change (firstn (Z.to_nat 0) (skipn 8 (make SnapshotHeaderSize ++ rest)))
    with (@nil byte).
  replace (Z.of_nat (Z.to_nat SnapshotHeaderSize + length rest))
    with (SnapshotHeaderSize + Z.of_nat (length rest)) by lia.
  reflexivity.
Qed.

(** X9: [ValidateHeader] returns only for a header whose checksum type is
    CRC32IEEE and whose stored checksum is the four-byte CRC of the header
    serialized with the checksum field cleared; in particular a header with
    a missing or empty checksum, or with another checksum type, always
    makes it panic. *)
Theorem ValidateHeader_returns_only_if
        (S : Type) (s s' : S) (header : SnapshotHeader) :
  ValidateHeader header s = Ret tt s' ->
  s' = s
  /\ ChecksumType header = CRC32IEEE
  /\ length (slice_bytes (HeaderChecksum header)) = 4%nat
  /\ exists data,
       Marshal (set_HeaderChecksum header None) = inr data
       /\ slice_bytes (HeaderChecksum header) = checksumOf data.
Proof.
  unfold ValidateHeader.
  destruct (Marshal (set_HeaderChecksum header None)) as [err|data] eqn:Hm;
    [discriminate|].
  unfold bind. cbn [ChecksumType set_HeaderChecksum].
  destruct (Z.eqb_spec (ChecksumType header) CRC32IEEE) as [Ht|Ht].
  - rewrite Ht, getChecksum_default. unfold bytesEqual. cbn [slice_bytes].
    fold (checksumOf data).
    destruct (bytes_eqb (checksumOf data)
                        (slice_bytes (HeaderChecksum header))) eqn:Heq;
      [|discriminate].
    apply bytes_eqb_eq in Heq. cbv beta iota delta [negb ret]. intros Hr.
    split; [congruence|]. split; [reflexivity|]. split.
    + rewrite <- Heq. reflexivity.
    + exists data. auto.
  - rewrite getChecksum_other by exact Ht. discriminate.
Qed.

End ReaderExtras.

(** * Further properties of the chunk validator *)

Section ValidatorExtras.

Context {E : Externals}.

Lemma list_set_length {A} (l : list A) (i : nat) (x : A) :
  length (list_set l i x) = length l.
Proof.
  revert i. induction l as [|a l IH]; intros [|i]; simpl; auto.
Qed.

Lemma list_set_same {A} (l : list A) (i : nat) (x : A) :
  (i < length l)%nat -> nth_error (list_set l i x) i = Some x.
Proof.
  revert i. induction l as [|a l IH]; intros [|i] Hi; simpl in *;
    try lia; [reflexivity|]. apply IH. lia.
Qed.

Lemma list_set_other {A} (l : list A) (i j : nat) (x : A) :
  j <> i -> nth_error (list_set l i x) j = nth_error l j.
Proof.
  revert i j. induction l as [|a l IH]; intros [|i] [|j] Hj; simpl;
    try reflexivity; try contradiction. apply IH. congruence.
Qed.

Lemma list_set_last {A} (l : list A) (x y : A) :
  list_set (l ++ [x]) (length l) y = l ++ [y].
Proof. induction l as [|a l IH]; simpl; [reflexivity|]. rewrite IH. reflexivity. Qed.

Lemma nth_error_last {A} (l : list A) (x : A) :
  nth_error (l ++ [x]) (length l) = Some x.
Proof.
  rewrite nth_error_app2 by lia. rewrite Nat.sub_diag. reflexivity.
Qed.

(** A method call through a pointer that holds a strategy validator. *)
Lemma call_stored {A} (l : nat) (method : M IVValidatorState A)
      (m : ValidatorMemory) (st : IVValidatorState) :
  nth_error (strategies m) l = Some st ->
  result (call l method m) = result (method st)
  /\ final (call l method m)
     = mkValidatorMemory (list_set (strategies m) l (final (method st)))
                         (v m).
Proof.
  intros Hst. unfold call. rewrite Hst.
  destruct (method st); split; reflexivity.
Qed.

Lemma call_keeps_length {A} (l : nat) (method : M IVValidatorState A)
      (m : ValidatorMemory) :
  length (strategies (final (call l method m))) = length (strategies m).
Proof.
  unfold call. destruct (nth_error (strategies m) l); [|reflexivity].
  destruct (method i); cbn [final strategies]; apply list_set_length.
Qed.

Lemma getVersionValidator_supported (h : SnapshotHeader)
      (m : ValidatorMemory) :
  Version h = 1 \/ (Version h = 2 /\ ChecksumType h = CRC32IEEE) ->
  getVersionValidator h m
  = Ret (length (strategies m))
        (mkValidatorMemory (strategies m ++ [firstStrategy h]) (v m)).
Proof.
  unfold getVersionValidator, firstStrategy.
  intros [Hv | [Hv Ht]]; rewrite Hv.
  - reflexivity.
  - change (2 =? v1SnapshotVersion) with false.
    change (2 =? v2SnapshotVersion) with true. cbv iota.
    unfold bind. rewrite Ht, getChecksum_default. reflexivity.
Qed.

(** X10: a chunk 0 whose header names a version other than 1 and 2, or
    version 2 with a checksum type other than CRC32IEEE, makes [AddChunk]
    panic on an unbound validator, and the memory is as it was: the
    validator stays unbound and no strategy validator is allocated. *)
Theorem AddChunk_unsupported_header_panics
        (data : bytes) (m : ValidatorMemory) (h : SnapshotHeader) :
  v m = None ->
  getHeaderFromFirstChunk data = (h, true) ->
  (Version h <> 1 /\ Version h <> 2)
  \/ (Version h = 2 /\ ChecksumType h <> CRC32IEEE) ->
  exists msg, AddChunk data 0 m = Panic msg m.
Proof.
  intros Hv Hh Hbad. rewrite AddChunk_zero, Hh, Hv. cbn [fst snd].
  unfold getVersionValidator.
  destruct Hbad as [[H1 H2] | [H2 Ht]].
  - destruct (version_tests _ H1 H2) as [T1 T2]. rewrite T1, T2.
    eexists. reflexivity.
  - rewrite H2. change (2 =? v1SnapshotVersion) with false.
    change (2 =? v2SnapshotVersion) with true. cbv iota.
    unfold bind. rewrite getChecksum_other by exact Ht.
    eexists. reflexivity.
Qed.

(** X11: on an unbound validator, a chunk 0 with an extracted header of a
    supported version allocates the strategy validator of that header,
    binds the validator to it and only then hands it the chunk: what
    [AddChunk] returns is the strategy's verdict on the chunk, and whatever
    that verdict is, also a rejection or a panic, the validator is bound
    afterwards, so that every later chunk 0 is refused. *)
Theorem AddChunk_binds_before_verdict
        (data : bytes) (m : ValidatorMemory) (h : SnapshotHeader) :
  v m = None ->
  getHeaderFromFirstChunk data = (h, true) ->
  Version h = 1 \/ (Version h = 2 /\ ChecksumType h = CRC32IEEE) ->
  let o := strategyAddChunk data 0 (firstStrategy h) in
  let m' := final (AddChunk data 0 m) in
  result (AddChunk data 0 m) = result o
  /\ v m' = Some (length (strategies m))
  /\ strategies m' = strategies m ++ [final o]
  /\ (forall data', AddChunk data' 0 m' = Ret false m').
Proof.
  intros Hv Hh Hsup o m'.
  assert (Heq : AddChunk data 0 m
                = call (length (strategies m)) (strategyAddChunk data 0)
                       (mkValidatorMemory
                          (strategies m ++ [firstStrategy h])
                          (Some (length (strategies m))))).
  { rewrite AddChunk_zero, Hh, Hv. cbn [fst snd].
    rewrite getVersionValidator_supported by exact Hsup. reflexivity. }
  destruct (call_stored (length (strategies m)) (strategyAddChunk data 0)
              (mkValidatorMemory (strategies m ++ [firstStrategy h])
                                 (Some (length (strategies m))))
              (firstStrategy h)) as [Hres Hfin].
  { cbn [strategies]. apply nth_error_last. }
  cbn [strategies v] in Hfin. rewrite list_set_last in Hfin.
  unfold m'. rewrite Heq. fold o in Hres, Hfin.
  split; [exact Hres|]. rewrite Hfin. cbn [v strategies].
  split; [reflexivity|]. split; [reflexivity|].
  intros data'. apply AddChunk_rejectedByState. right. right.
  split; [reflexivity|]. cbn [v]. discriminate.
Qed.

(** X12: on a bound validator, a chunk with a number other than 0 goes to
    the bound strategy validator and to nothing else: [AddChunk] returns
    that strategy's verdict, the binding and the number of strategy
    validators stay, and every other strategy validator is untouched. *)
Theorem AddChunk_later_chunk_delegates
        (data : bytes) (chunkID : Z) (m : ValidatorMemory) (l : nat)
        (st : IVValidatorState) :
  v m = Some l ->
  nth_error (strategies m) l = Some st ->
  chunkID <> 0 ->
  let o := strategyAddChunk data chunkID st in
  let m' := final (AddChunk data chunkID m) in
  result (AddChunk data chunkID m) = result o
  /\ v m' = Some l
  /\ nth_error (strategies m') l = Some (final o)
  /\ length (strategies m') = length (strategies m)
  /\ (forall j, j <> l ->
                nth_error (strategies m') j = nth_error (strategies m) j).
Proof.
  intros Hv Hst Hid o m'. unfold m'.
  rewrite (AddChunk_later _ _ _ Hid), Hv.
  destruct (call_stored l (strategyAddChunk data chunkID) m st Hst)
    as [Hres Hfin].
  fold o in Hres, Hfin. rewrite Hfin. cbn [v strategies].
  split; [exact Hres|]. split; [exact Hv|]. split.
  - apply list_set_same. apply nth_error_Some. congruence.
  - split; [apply list_set_length|].
    intros j Hj. apply list_set_other. exact Hj.
Qed.

Lemma AddChunk_wellBound (data : bytes) (chunkID : Z)
      (m : ValidatorMemory) :
  wellBound m -> wellBound (final (AddChunk data chunkID m)).
Proof.
  intros Hw. destruct (Z.eq_dec chunkID 0) as [->|Hid].
  - rewrite AddChunk_zero.
    destruct (snd (getHeaderFromFirstChunk data)); [|exact Hw].
    destruct (v m) as [l|] eqn:Hv; [exact Hw|].
    destruct Hw as [[_ Hs] | [Hv' _]]; [|congruence].
    destruct (getVersionValidator_result
                (fst (getHeaderFromFirstChunk data)) m)
      as [[msg ->] | [st ->]].
    + left. cbn [final]. auto.
    + right. rewrite call_keeps_v, call_keeps_length.
      cbn [v strategies]. rewrite Hs. auto.
  - rewrite (AddChunk_later _ _ _ Hid).
    destruct (v m) as [l|] eqn:Hv; [|exact Hw].
    unfold wellBound. rewrite call_keeps_v, call_keeps_length.
    destruct Hw as [[Hn _] | Hb]; [congruence|]. right. exact Hb.
Qed.

Lemma Validate_wellBound (m : ValidatorMemory) :
  wellBound m -> wellBound (final (Validate m)).
Proof.
  intros Hw. rewrite Validate_eq.
  destruct (v m) as [l|] eqn:Hv; [|exact Hw].
  unfold wellBound. rewrite call_keeps_v, call_keeps_length.
  destruct Hw as [[Hn _] | Hb]; [congruence|]. right. exact Hb.
Qed.

(** X13: whatever calls are made on a validator from
    [NewSnapshotValidator] on, and whichever of them return false or panic,
    it is either unbound with no strategy validator allocated or bound to
    the only strategy validator ever allocated: a header is established at
    most once and a strategy is built at most once. *)
Theorem validator_allocates_at_most_once (cs : list ValidatorCall) :
  wellBound (runCalls cs NewSnapshotValidator).
Proof.
  assert (Hgen : forall m, wellBound m -> wellBound (runCalls cs m)).
  { unfold runCalls. induction cs as [|c cs IH]; intros m Hw; [exact Hw|].
    cbn [fold_left]. apply IH. destruct c as [data chunkID|].
    - apply AddChunk_wellBound. exact Hw.
    - apply Validate_wellBound. exact Hw. }
  apply Hgen. left. split; reflexivity.
Qed.

(** X14: as long as no chunk 0 with an extractable header arrives, an
    unbound validator accepts nothing: every [AddChunk] and every
    [Validate] of the run returns false, and the memory after the run is
    the one before it. *)
Theorem unbound_validator_accepts_nothing
        (cs : list ValidatorCall) (m : ValidatorMemory) :
  v m = None ->
  Forall headerless cs ->
  runCalls cs m = m
  /\ Forall (fun c =>
               match c with
               | CallAddChunk data chunkID =>
                   AddChunk data chunkID m = Ret false m
               | CallValidate => Validate m = Ret false m
               end) cs.
Proof.
  intros Hv Hall.
  assert (Hone : forall c, headerless c ->
                   match c with
                   | CallAddChunk data chunkID =>
                       AddChunk data chunkID m = Ret false m
                   | CallValidate => Validate m = Ret false m
                   end).
  { intros [data chunkID|] Hc.
    - apply AddChunk_rejectedByState. cbn [headerless] in Hc.
      destruct (Z.eq_dec chunkID 0) as [->|Hid].
      + left. destruct Hc as [Hc|Hc]; [contradiction|auto].
      + right. left. auto.
    - rewrite Validate_eq, Hv. reflexivity. }
  split.
  - unfold runCalls. induction Hall as [|c cs Hc Hcs IH]; [reflexivity|].
    cbn [fold_left]. replace (runCall c m) with m; [exact IH|].
    specialize (Hone c Hc). destruct c; cbn [runCall]; rewrite Hone;
      reflexivity.
  - exact (Forall_impl _ Hone Hall).
Qed.

End ValidatorExtras.

Section PayloadExtras.

Context {E : Externals}.

(** X15: after a successful [GetHeader], reading to the end of the stream
    returns the payload region of the file, and [ValidatePayload] then
    returns exactly when the payload checksum stored in the header is the
    CRC of that region and panics otherwise; the strategy readers are the
    pass-through readers of the model. *)
Theorem ValidatePayload_after_full_read
        (sr sr' : SnapshotReader) (d d' : Disk) (hdr : SnapshotHeader)
        (bufsz fuel : nat) :
  let c := content d (fname (rfile sr)) in
  let region := payloadRegion (Version hdr) c in
  regionFits ->
  fpos (rfile sr) = 0 ->
  Z.of_nat (length c) < 2 ^ 63 ->
  GetHeader sr d = Ret (hdr, None, sr') d' ->
  (0 < bufsz)%nat ->
  (length region < fuel)%nat ->
  exists sr'',
    ReadToEnd fuel sr' bufsz [] d' = Ret (region, Some EOF, sr'') d'
    /\ (forall (S : Type) (s : S),
           ValidatePayload sr'' hdr s
           = if bytes_eqb (checksumOf region)
                          (slice_bytes (PayloadChecksum hdr))
             then Ret tt s
             else Panic "corrupted snapshot payload" s).
Proof.
  intros c region Hfit Hpos Hsize Hget Hb Hfuel.
  destruct (GetHeader_returned sr sr' d d' hdr Hfit Hpos Hsize Hget)
    as (-> & _ & _ & _ & _ & _ & _ & Hrd).
  fold c region in Hrd.
  destruct (ReadToEnd_all fuel sr' bufsz [] d region newCRC32Hash
              Hrd Hb Hfuel) as (sr'' & Hread & Hrd2).
  exists sr''. split; [exact Hread|].
  destruct Hrd2 as (_ & vr & Hr & _ & Hh).
  intros S s. unfold ValidatePayload. rewrite Hr.
  unfold IVReader_Sum, bytesEqual. rewrite Hh. cbn [slice_bytes].
  fold (checksumOf region).
  destruct (bytes_eqb _ _); reflexivity.
Qed.

End PayloadExtras.

(** * The further properties on the sample instance *)

Lemma NewSnapshotWriter_reserves_region_witness :
  exists sw d',
    NewSnapshotWriter (E := Sample.externals) Sample.path 2 Sample.shared
    = Ret (Some sw, None) d'
    /\ d' Sample.path = Some (make 1024)
    /\ file sw = mkFile Sample.path 1024
    /\ fp sw = Sample.path
    /\ IVWriter_GetVersion (vw sw) = 2
    /\ (forall q, q <> Sample.path -> d' q = Sample.shared q).
Proof.
  apply (NewSnapshotWriter_reserves_region
           (E := Sample.externals) Sample.path 2 Sample.shared).
  - right. reflexivity.
  - vm_compute. discriminate.
Defined.

Lemma NewSnapshotWriter_unsupported_version_witness :
  exists d',
    NewSnapshotWriter (E := Sample.externals) Sample.path 3 Sample.shared
    = Panic "unsupported v" d'
    /\ d' Sample.path = Some (make 1024)
    /\ (forall q, q <> Sample.path -> d' q = Sample.shared q).
Proof.
  apply (NewSnapshotWriter_unsupported_version
           (E := Sample.externals) Sample.path 3 Sample.shared).
  - discriminate.
  - discriminate.
  - vm_compute. discriminate.
Defined.

Lemma SaveHeader_keeps_payload_witness :
  skipn 1024
        (content
           (final (SaveHeader (E := Sample.externals) Sample.writer
                              4 6 1700000000 Sample.flushed))
           Sample.path)
  = skipn 1024 (content Sample.flushed Sample.path).
Proof.
  destruct (SaveHeader (E := Sample.externals) Sample.writer 4 6 1700000000
                       Sample.flushed) as [[err sw'] d'|msg d'] eqn:Hs.
  - destruct (SaveHeader_keeps_payload
                (E := Sample.externals) Sample.writer sw' 4 6 1700000000
                Sample.flushed d' err Hs)
      as (sh & data & _ & _ & _ & Hpay & _).
    exact Hpay.
  - vm_compute in Hs. discriminate.
Defined.

Lemma GetHeader_after_SaveHeader_witness :
  exists sh data,
    finalHeader (E := Sample.externals) Sample.writer 4 6 1700000000
                Sample.flushed
    = Ret (sh, data) Sample.flushed.
Proof.
  destruct (SaveHeader (E := Sample.externals) Sample.writer 4 6 1700000000
                       Sample.flushed) as [[err sw'] d'|msg d'] eqn:Hs.
  - destruct (GetHeader_after_SaveHeader
                (E := Sample.externals) Sample.writer sw' 4 6 1700000000
                Sample.flushed d' err Sample.reader0 Hs sample_regionFits
                eq_refl eq_refl)
      as (sh & data & Hf & _).
    exists sh, data. exact Hf.
  - vm_compute in Hs. discriminate.
Defined.

Lemma Read_before_GetHeader_panics_witness :
  exists sr,
    NewSnapshotReader Sample.path Sample.unsaved
    = Ret (Some sr, None) Sample.unsaved
    /\ rfile sr = mkFile Sample.path 0
    /\ SnapshotReader_Read sr 4 Sample.unsaved
       = Panic "Read called before GetHeader" Sample.unsaved
    /\ ValidatePayload sr Sample.header Sample.unsaved
       = Panic "invalid memory address or nil pointer dereference"
               Sample.unsaved.
Proof.
  apply (Read_before_GetHeader_panics
           Sample.path Sample.unsaved (make 1024 ++ Sample.payload) 4
           Sample.header).
  reflexivity.
Defined.

Lemma GetHeader_short_file_witness :
  GetHeader (E := Sample.externals) Sample.reader0 Sample.stub
  = Ret (emptyHeader, Some ErrUnexpectedEOF,
         mkSnapshotReader None (mkFile Sample.path 3)) Sample.stub.
Proof.
  destruct (GetHeader_short_file
              (E := Sample.externals) Sample.reader0 Sample.stub
              sample_regionFits eq_refl) as (_ & Hshort & _).
  apply Hshort. split; apply Nat.ltb_lt; reflexivity.
Defined.

Lemma GetHeader_rejects_foreign_record_witness :
  GetHeader (E := Sample.externals) Sample.reader0 Sample.foreign
  = Panic "unsupported v" Sample.foreign.
Proof.
  destruct (GetHeader_rejects_foreign_record
              (E := Sample.externals) Sample.reader0 Sample.foreign
              sample_regionFits eq_refl) as (_ & Hver).
  - apply Nat.leb_le. vm_compute. reflexivity.
  - vm_compute. discriminate.
  - vm_compute. discriminate.
  - apply (Hver Sample.foreignHeader).
    + vm_compute. reflexivity.
    + discriminate.
    + discriminate.
Defined.

Lemma GetHeader_unsaved_header_witness :
  GetHeader (E := Sample.externals) Sample.reader0 Sample.unsaved
  = Panic "unexpected EOF" Sample.unsaved.
Proof.
  rewrite (GetHeader_unsaved_header
             (E := Sample.externals) Sample.reader0 Sample.unsaved
             Sample.payload sample_regionFits eq_refl eq_refl).
  reflexivity.
Defined.

Lemma ValidateHeader_returns_only_if_witness :
  ChecksumType Sample.header = 0
  /\ length (slice_bytes (HeaderChecksum Sample.header)) = 4%nat.
Proof.
  assert (Hok : ValidateHeader (E := Sample.externals) Sample.header tt
                = Ret tt tt) by (vm_compute; reflexivity).
  destruct (ValidateHeader_returns_only_if
              (E := Sample.externals) unit tt tt Sample.header Hok)
    as (_ & Ht & Hl & _).
  split; [exact Ht | exact Hl].
Defined.

Lemma AddChunk_unsupported_header_panics_witness :
  exists msg,
    AddChunk (E := Sample.externals) Sample.foreignFile 0
             NewSnapshotValidator
    = Panic msg NewSnapshotValidator.
Proof.
  apply (AddChunk_unsupported_header_panics
           (E := Sample.externals) Sample.foreignFile NewSnapshotValidator
           Sample.foreignHeader).
  - reflexivity.
  - vm_compute. reflexivity.
  - left. split; discriminate.
Defined.

Lemma AddChunk_binds_before_verdict_witness :
  v Sample.bound = Some 0%nat
  /\ AddChunk (E := Sample.externals) [] 0 Sample.bound
     = Ret false Sample.bound.
Proof.
  destruct (AddChunk_binds_before_verdict
              (E := Sample.externals) Sample.firstChunk NewSnapshotValidator
              Sample.header) as (_ & Hv & _ & Hrej).
  - reflexivity.
  - vm_compute. reflexivity.
  - right. split; reflexivity.
  - split; [exact Hv | exact (Hrej [])].
Defined.

Lemma AddChunk_later_chunk_delegates_witness :
  v (final (AddChunk (E := Sample.externals) [x01] 1 Sample.bound))
  = Some 0%nat
  /\ length (strategies
               (final (AddChunk (E := Sample.externals) [x01] 1
                                Sample.bound))) = 1%nat.
Proof.
  destruct (AddChunk_later_chunk_delegates
              (E := Sample.externals) [x01] 1 Sample.bound 0%nat
              (None, crc32.Write crc32.NewIEEE Sample.firstChunk))
    as (_ & Hv & _ & Hlen & _).
  - vm_compute. reflexivity.
  - vm_compute. reflexivity.
  - discriminate.
  - split; [exact Hv|]. rewrite Hlen. vm_compute. reflexivity.
Defined.

Lemma unbound_validator_accepts_nothing_witness :
  runCalls (E := Sample.externals)
           [CallAddChunk [x01] 1; CallValidate; CallAddChunk [x02] 0]
           NewSnapshotValidator
  = NewSnapshotValidator.
Proof.
  apply (unbound_validator_accepts_nothing
           (E := Sample.externals)
           [CallAddChunk [x01] 1; CallValidate; CallAddChunk [x02] 0]
           NewSnapshotValidator).
  - reflexivity.
  - apply Forall_cons; [left; discriminate|].
    apply Forall_cons; [exact I|].
    apply Forall_cons; [right; reflexivity|].
    apply Forall_nil.
Defined.

Lemma ValidatePayload_after_full_read_witness :
  exists sr'',
    ReadToEnd 11 Sample.reader1 4 [] Sample.written
    = Ret (payloadRegion (E := Sample.externals) 2
                         (content Sample.written Sample.path),
           Some EOF, sr'') Sample.written
    /\ ValidatePayload sr'' Sample.header tt = Ret tt tt.
Proof.
  destruct (ValidatePayload_after_full_read
              (E := Sample.externals) Sample.reader0 Sample.reader1
              Sample.written Sample.written Sample.header 4 11
              sample_regionFits eq_refl)
    as (sr'' & Hread & Hvp).
  - vm_compute; reflexivity.
  - exact sample_GetHeader.
  - apply Nat.ltb_lt; reflexivity.
  - apply Nat.ltb_lt; vm_compute; reflexivity.
  - exists sr''. split.
    + exact Hread.
    + rewrite (Hvp unit tt). vm_compute; reflexivity.
Defined.
